(** * Detection engine of the security monitoring agent

    A shallow embedding of the aggregation-to-alert pipeline:

    - the per-actor aggregation loop of [main.py], [run_pipeline.py] and
      [detection/threat_agent.py];
    - [RuleEngine.check_rules] of [detection/rule_engine.py];
    - [AnomalyDetector] ([__init__], [detect], [_heuristic_mask]) of
      [detection/anomaly_detector.py].

    Python dictionaries with string keys are finite maps [gmap string pyval];
    exceptions are values of an error monad; the interpreter's binary64
    arithmetic is an interface ([PyFloat]) with an IEEE instance on the
    primitive floats, and the optional third-party libraries (numpy,
    scikit-learn) are optional records of operations, as the guarded imports
    of the module make them. *)

From Stdlib Require Import ZArith Floats Ascii String.
From stdpp Require Import gmap strings list fin_maps.

Open Scope Z_scope.

#[local] Set Warnings "-inexact-float".

(** ** Exceptions and the error monad *)

Inductive exn : Type :=
| TypeError
| ValueError
| OverflowError
| ZeroDivisionError
| IndexError
| OtherError (msg : string).

Inductive result (A : Type) : Type :=
| Ok (a : A)
| Raise (e : exn).

Arguments Ok {A} a.
Arguments Raise {A} e.

#[global] Instance result_ret : MRet result := fun A a => Ok a.

#[global] Instance result_bind : MBind result := fun A B k m =>
  match m with
  | Ok a => k a
  | Raise e => Raise e
  end.

#[global] Instance result_fmap : FMap result := fun A B g m =>
  match m with
  | Ok a => Ok (g a)
  | Raise e => Raise e
  end.

Definition is_ok {A : Type} (m : result A) : bool :=
  match m with Ok _ => true | Raise _ => false end.

(** [try: m except Exception: h]. Every member of [exn] derives from
    [Exception]. *)
Definition try_except {A : Type} (m : result A) (h : result A) : result A :=
  match m with
  | Ok a => Ok a
  | Raise _ => h
  end.

(** [[f(x) for x in l]], stopping at the first exception. *)
Fixpoint map_result {A B : Type} (f : A -> result B) (l : list A) : result (list B) :=
  match l with
  | [] => Ok []
  | x :: l' => y ← f x; ys ← map_result f l'; Ok (y :: ys)
  end.

(** ** Python values *)

Section Values.

Context {F : Type}.

(** The scalar values a record of the pipeline can hold. *)
Inductive pyval : Type :=
| PNone
| PBool (b : bool)
| PInt (z : Z)
| PFloat (f : F)
| PStr (s : string).

End Values.

Arguments pyval F : clear implicits.

(** The binary64 arithmetic of the interpreter, and the [int] constructor on
    strings. Operations that raise in Python return a [result]. *)
Class PyFloat (F : Type) : Type := {
  (** [float(z)]: OverflowError when [z] is too large. *)
  f_of_int : Z -> result F;
  (** [a / b] on two ints, [b] non-zero. *)
  f_int_truediv : Z -> Z -> result F;
  f_add : F -> F -> F;
  f_sub : F -> F -> F;
  (** float division by a non-zero divisor. *)
  f_div : F -> F -> F;
  f_abs : F -> F;
  (** [a > b]. *)
  f_gtb : F -> F -> bool;
  (** [a == b] on two floats. *)
  f_eqb : F -> F -> bool;
  (** [a == z], a float against an int (exact). *)
  f_eq_int : F -> Z -> bool;
  (** [x ** 2]. *)
  f_pow2 : F -> result F;
  (** [x ** 0.5]. *)
  f_pow_half : F -> result F;
  (** [int(x)]: ValueError on NaN, OverflowError on an infinity. *)
  f_to_int : F -> result Z;
  (** the literals [1e-8], [0.1] and [3.0]. *)
  f_eps : F;
  f_0_1 : F;
  f_3_0 : F;
  (** [int(s)] on a string; [None] is ValueError. *)
  str_to_int : string -> option Z;
  (** [1e-8 == 0] is false, and [float(0)] does not raise. *)
  f_eps_nonzero : f_eq_int f_eps 0 = false;
  f_of_int_0 : is_ok (f_of_int 0) = true
}.

(** ** The IEEE binary64 instance

    [x ** 2] is the correctly rounded square and [x ** 0.5] the correctly
    rounded square root; the C library's [pow] may differ from them in the
    last place. Both raise OverflowError when a finite operand overflows. *)

Module IEEE.

Definition of_Z (z : Z) : float :=
  SF2Prim (binary_normalize prec emax z 0 false).

Definition Z2SF (z : Z) : spec_float :=
  match z with
  | Z0 => S754_zero false
  | Zpos p => S754_finite false p 0
  | Zneg p => S754_finite true p 0
  end.

Definition checked (f : float) : result float :=
  if is_infinity f then Raise OverflowError else Ok f.

Definition of_int (z : Z) : result float := checked (of_Z z).

Definition int_truediv (a b : Z) : result float :=
  checked (SF2Prim (SFdiv prec emax (Z2SF a) (Z2SF b))).

Definition pow2 (x : float) : result float :=
  let y := PrimFloat.mul x x in
  if is_finite x && is_infinity y then Raise OverflowError else Ok y.

(** A negative base has a complex square root, which is outside [pyval];
    the variance passed by [_heuristic_mask] is never negative. *)
Definition pow_half (x : float) : result float :=
  if PrimFloat.ltb x PrimFloat.zero then Raise (OtherError "complex result")
  else if is_zero x then Ok PrimFloat.zero
  else Ok (PrimFloat.sqrt x).

(** The integer part of a finite float, rounded toward zero. *)
Definition to_int (x : float) : result Z :=
  match Prim2SF x with
  | S754_zero _ => Ok 0
  | S754_infinity _ => Raise OverflowError
  | S754_nan => Raise ValueError
  | S754_finite s m e =>
      let v := if 0 <=? e then Z.pos m * 2 ^ e else Z.pos m / 2 ^ (- e) in
      Ok (if s then - v else v)
  end.

Definition eq_int (x : float) (z : Z) : bool :=
  match Prim2SF x with
  | S754_zero _ => z =? 0
  | S754_infinity _ => false
  | S754_nan => false
  | S754_finite s m e =>
      if 0 <=? e then (if s then - (Z.pos m * 2 ^ e) else Z.pos m * 2 ^ e) =? z
      else (Z.pos m mod 2 ^ (- e) =? 0)
           && ((if s then - (Z.pos m / 2 ^ (- e)) else Z.pos m / 2 ^ (- e)) =? z)
  end.

Definition is_space (c : ascii) : bool :=
  let n := Z.of_N (N_of_ascii c) in
  ((9 <=? n) && (n <=? 13)) || ((28 <=? n) && (n <=? 32)).

Definition digit_of (c : ascii) : option Z :=
  let n := Z.of_N (N_of_ascii c) in
  if (48 <=? n) && (n <=? 57) then Some (n - 48) else None.

Fixpoint strip_left (s : list ascii) : list ascii :=
  match s with
  | c :: s' => if is_space c then strip_left s' else s
  | [] => []
  end.

Definition strip (s : list ascii) : list ascii :=
  rev (strip_left (rev (strip_left s))).

(** Decimal digits, single underscores allowed between digits. *)
Fixpoint parse_digits (acc : Z) (after_digit : bool) (s : list ascii) : option Z :=
  match s with
  | [] => if after_digit then Some acc else None
  | c :: s' =>
      match digit_of c with
      | Some d => parse_digits (10 * acc + d) true s'
      | None =>
          if Ascii.eqb c "_" && after_digit then parse_digits acc false s' else None
      end
  end.

Definition int_of_string (s : string) : option Z :=
  match strip (list_ascii_of_string s) with
  | c :: s' =>
      if Ascii.eqb c "-" then Z.opp <$> parse_digits 0 false s'
      else if Ascii.eqb c "+" then parse_digits 0 false s'
      else parse_digits 0 false (c :: s')
  | [] => None
  end.

#[global] Instance ieee : PyFloat float := {|
  f_of_int := of_int;
  f_int_truediv := int_truediv;
  f_add := PrimFloat.add;
  f_sub := PrimFloat.sub;
  f_div := PrimFloat.div;
  f_abs := PrimFloat.abs;
  f_gtb := fun a b => PrimFloat.ltb b a;
  f_eqb := PrimFloat.eqb;
  f_eq_int := eq_int;
  f_pow2 := pow2;
  f_pow_half := pow_half;
  f_to_int := to_int;
  f_eps := 1e-8%float;
  f_0_1 := 0.1%float;
  f_3_0 := 3%float;
  str_to_int := int_of_string;
  f_eps_nonzero := eq_refl;
  f_of_int_0 := eq_refl
|}.

End IEEE.

(** ** Operations on Python values *)

Section Python.

Context {F : Type} `{!PyFloat F}.

Definition is_none (v : pyval F) : bool :=
  match v with PNone => true | _ => false end.

Definition is_float (v : pyval F) : bool :=
  match v with PFloat _ => true | _ => false end.

(** [bool] is a subclass of [int]. *)
Definition as_int (v : pyval F) : option Z :=
  match v with
  | PBool b => Some (if b then 1 else 0)
  | PInt z => Some z
  | _ => None
  end.

(** [bool(v)]. *)
Definition truthy (v : pyval F) : bool :=
  match v with
  | PNone => false
  | PBool b => b
  | PInt z => negb (z =? 0)
  | PFloat f => negb (f_eq_int f 0)
  | PStr s => negb (String.eqb s "")
  end.

(** [a or b]. *)
Definition py_or (a b : pyval F) : pyval F := if truthy a then a else b.

(** [a == b]; it is also the equality of dictionary keys. *)
Definition py_eqb (a b : pyval F) : bool :=
  match a, b with
  | PNone, PNone => true
  | PStr s, PStr t => String.eqb s t
  | PFloat f, PFloat g => f_eqb f g
  | PFloat f, _ => match as_int b with Some z => f_eq_int f z | None => false end
  | _, PFloat g => match as_int a with Some z => f_eq_int g z | None => false end
  | _, _ =>
      match as_int a, as_int b with
      | Some x, Some y => x =? y
      | _, _ => false
      end
  end.

(** [d.get(k)] and [d.get(k, dflt)]. *)
Definition get (d : gmap string (pyval F)) (k : string) : pyval F :=
  default PNone (d !! k).

Definition get_default (d : gmap string (pyval F)) (k : string) (dflt : pyval F) : pyval F :=
  default dflt (d !! k).

(** [l[i]]. *)
Definition index {A : Type} (l : list A) (i : nat) : result A :=
  match l !! i with
  | Some x => Ok x
  | None => Raise IndexError
  end.

(** The conversion of a numeric operand that meets a float. *)
Definition to_float (v : pyval F) : result F :=
  match v with
  | PFloat f => Ok f
  | PInt z => f_of_int z
  | PBool b => f_of_int (if b then 1 else 0)
  | _ => Raise TypeError
  end.

(** [a + b]. *)
Definition py_add (a b : pyval F) : result (pyval F) :=
  match as_int a, as_int b with
  | Some x, Some y => Ok (PInt (x + y))
  | _, _ =>
      match a, b with
      | PStr s, PStr t => Ok (PStr (s ++ t))
      | PNone, _ | PStr _, _ | _, PNone | _, PStr _ => Raise TypeError
      | _, _ => x ← to_float a; y ← to_float b; Ok (PFloat (f_add x y))
      end
  end.

(** [sum(l)], the left-to-right sum that starts from the int [0]; the
    compensated summation that recent interpreters apply to floats is not
    modelled. *)
Fixpoint py_sum_from (acc : pyval F) (l : list (pyval F)) : result (pyval F) :=
  match l with
  | [] => Ok acc
  | v :: l' => acc' ← py_add acc v; py_sum_from acc' l'
  end.

Definition py_sum (l : list (pyval F)) : result (pyval F) := py_sum_from (PInt 0) l.

(** [x / y] on two floats. *)
Definition py_fdiv (x y : F) : result F :=
  if f_eq_int y 0 then Raise ZeroDivisionError else Ok (f_div x y).

(** [a / n], [n] an int. *)
Definition py_truediv (a : pyval F) (n : Z) : result F :=
  match a with
  | PFloat f => d ← f_of_int n; py_fdiv f d
  | PNone | PStr _ => Raise TypeError
  | _ =>
      match as_int a with
      | Some z => if n =? 0 then Raise ZeroDivisionError else f_int_truediv z n
      | None => Raise TypeError
      end
  end.

(** [int(v)]. *)
Definition py_int (v : pyval F) : result Z :=
  match v with
  | PNone => Raise TypeError
  | PBool b => Ok (if b then 1 else 0)
  | PInt z => Ok z
  | PFloat f => f_to_int f
  | PStr s =>
      match str_to_int s with
      | Some z => Ok z
      | None => Raise ValueError
      end
  end.

End Python.

(** ** The aggregation loop

    [agg = {}] followed by the loop over the events, as it stands in
    [main.py], [run_pipeline.py] and the demos of [threat_agent.py] and
    [anomaly_detector.py]. The dictionary [agg] keeps its keys in insertion
    order; an entry is the dictionary
    [{'ip': ip, 'failed_logins': n, 'requests': m}], whose two counters are
    ints. [entry] names the slot of [agg] that [setdefault] returned, so both
    increments act on the stored object. *)

Module Aggregator.

Section Aggregator.

Context {F : Type} `{!PyFloat F}.

Record entry : Type := {
  ip : pyval F;
  failed_logins : Z;
  requests : Z
}.

(** [r.get('source_ip') or r.get('ip') or 'unknown']. *)
Definition resolve_actor (r : gmap string (pyval F)) : pyval F :=
  py_or (py_or (get r "source_ip") (get r "ip")) (PStr "unknown").

(** [r.get('event') == 'failed_login']. *)
Definition is_failed_login (r : gmap string (pyval F)) : bool :=
  py_eqb (get r "event") (PStr "failed_login").

(** The position of the key in the dictionary, if it is there. *)
Fixpoint find_key (k : pyval F) (agg : list (pyval F * entry)) : option nat :=
  match agg with
  | [] => None
  | (k', _) :: agg' => if py_eqb k' k then Some 0%nat else S <$> find_key k agg'
  end.

(** [agg.setdefault(k, d)]: the slot of the entry and the dictionary. *)
Definition setdefault (k : pyval F) (d : entry) (agg : list (pyval F * entry))
  : nat * list (pyval F * entry) :=
  match find_key k agg with
  | Some i => (i, agg)
  | None => (length agg, agg ++ [(k, d)])
  end.

Definition incr_failed_logins (e : entry) : entry :=
  {| ip := ip e; failed_logins := failed_logins e + 1; requests := requests e |}.

Definition incr_requests (e : entry) : entry :=
  {| ip := ip e; failed_logins := failed_logins e; requests := requests e + 1 |}.

(** One turn of the loop. *)
Definition step (agg : list (pyval F * entry)) (r : gmap string (pyval F))
  : list (pyval F * entry) :=
  let ip := resolve_actor r in
  let '(slot, agg) :=
    setdefault ip {| ip := ip; failed_logins := 0; requests := 0 |} agg in
  let agg :=
    if is_failed_login r then alter (prod_map id incr_failed_logins) slot agg else agg in
  alter (prod_map id incr_requests) slot agg.

Definition aggregate_entries (logs : list (gmap string (pyval F))) : list entry :=
  snd <$> fold_left step logs [].

Definition entry_dict (e : entry) : gmap string (pyval F) :=
  {[ "ip" := ip e;
     "failed_logins" := PInt (failed_logins e);
     "requests" := PInt (requests e) ]}.

(** [list(agg.values())] after the loop. *)
Definition aggregate (logs : list (gmap string (pyval F))) : list (gmap string (pyval F)) :=
  entry_dict <$> aggregate_entries logs.

End Aggregator.

Arguments entry F : clear implicits.

End Aggregator.

(** ** The rule engine *)

Module RuleEngine.

Section RuleEngine.

Context {F : Type} `{!PyFloat F}.

(** The coercion of the stored value, lines 10 to 17: [None] and ["unknown"]
    are 0, and so is a value on which [int] raises TypeError or ValueError. *)
Definition coerce (failed_logins : pyval F) : result Z :=
  if is_none failed_logins || py_eqb failed_logins (PStr "unknown") then Ok 0
  else
    match py_int failed_logins with
    | Ok z => Ok z
    | Raise TypeError | Raise ValueError => Ok 0
    | Raise e => Raise e
    end.

Definition alert (ip : pyval F) (failed_logins : Z) : gmap string (pyval F) :=
  {[ "type" := PStr "Brute Force";
     "ip" := ip;
     "failed_logins" := PInt failed_logins ]}.

(** The loop over [df.iterrows()]; a row that has no column [k] reads as
    [None], through [row.get(k)] or through the row adapter of
    [ThreatAgent.analyze]. *)
Fixpoint check_rules_loop (rows : list (gmap string (pyval F)))
    (alerts : list (gmap string (pyval F))) : result (list (gmap string (pyval F))) :=
  match rows with
  | [] => Ok alerts
  | row :: rows' =>
      let failed_logins := get row "failed_logins" in
      let ip := get row "ip" in
      failed_logins ← coerce failed_logins;
      let alerts :=
        if 5 <? failed_logins then alerts ++ [alert ip failed_logins] else alerts in
      check_rules_loop rows' alerts
  end.

Definition check_rules (df : list (gmap string (pyval F)))
  : result (list (gmap string (pyval F))) :=
  check_rules_loop df [].

End RuleEngine.

End RuleEngine.

(** ** The anomaly detector *)

Module AnomalyDetector.

Section AnomalyDetector.

Context {F : Type} `{!PyFloat F} {Model : Type}.

(** The feature matrix: the nested list that [detect] builds without numpy,
    or the two-dimensional float array that [np.array] makes of it. *)
Inductive features : Type :=
| FList (rows : list (list (pyval F)))
| FArray (arr : list (list F)).

(** The numpy calls of the module. [np_array] is [np.array] and
    [np.asarray] on a nested list, given as the rows of a two-dimensional
    array; [np_nanmean] and [np_nanstd] reduce along axis 0. *)
Record NumpyApi : Type := {
  np_array : list (list (pyval F)) -> result (list (list F));
  np_nanmean : list (list F) -> list F;
  np_nanstd : list (list F) -> list F
}.

(** [IsolationForest(contamination=c)], [model.fit(X)], which updates the
    model in place, and [model.predict(X)], whose labels are 1 and -1. *)
Record SklearnApi : Type := {
  IsolationForest : F -> result Model;
  fit : Model -> features -> Model * result unit;
  predict : Model -> features -> result (list Z)
}.

(** The outcome of the two guarded imports: [_HAS_NUMPY] and [_HAS_SKLEARN]
    hold when the library is there. *)
Record Env : Type := {
  numpy : option NumpyApi;
  sklearn : option SklearnApi
}.

Record AnomalyDetector : Type := {
  contamination : F;
  n_sigma : F;
  model : option Model
}.

(** [__init__(self, contamination=0.1, n_sigma=3.0)]; an argument that the
    caller leaves out is [None] here. *)
Definition __init__ (env : Env) (contamination n_sigma : option F)
  : result AnomalyDetector :=
  let contamination := default f_0_1 contamination in
  let n_sigma := default f_3_0 n_sigma in
  match sklearn env with
  | Some sk =>
      m ← IsolationForest sk contamination;
      Ok {| contamination := contamination; n_sigma := n_sigma; model := Some m |}
  | None =>
      Ok {| contamination := contamination; n_sigma := n_sigma; model := None |}
  end.

(** *** The vectorized heuristic, lines 94 to 103 *)

(** [stds[stds == 0] = 1e-8]. *)
Definition guard_std (std : F) : F := if f_eq_int std 0 then f_eps else std.

(** One row of [np.abs((arr - means) / stds)]. *)
Definition np_zscores (means stds : list F) (row : list F) : list F :=
  zip_with (fun a ms => f_abs (f_div (f_sub a ms.1) ms.2)) row (zip means stds).

(** The array is two-dimensional here, which leaves nothing to the reshape of
    line 97. *)
Definition np_heuristic_mask (np : NumpyApi) (n_sigma : F) (fs : features)
  : result (list bool) :=
  arr ← match fs with
        | FList rows => np_array np rows
        | FArray arr => Ok arr
        end;
  let means := np_nanmean np arr in
  let stds := guard_std <$> np_nanstd np arr in
  let z := np_zscores means stds <$> arr in
  Ok ((fun zrow => existsb (fun zv => f_gtb zv n_sigma) zrow) <$> z).

(** *** The pure-Python heuristic, lines 105 to 135 *)

(** [zip( *rows)]: the columns, as long as the shortest row. *)
Fixpoint zip_star (rows : list (list (pyval F))) : list (list (pyval F)) :=
  match rows with
  | [] => []
  | r :: rows' =>
      match rows' with
      | [] => (fun v => [v]) <$> r
      | _ => zip_with cons r (zip_star rows')
      end
  end.

(** [v if v is not None else 0]. *)
Definition none_to_zero (v : pyval F) : pyval F :=
  match v with PNone => PInt 0 | _ => v end.

(** [sum((v - mean) ** 2 for v in vals)]. *)
Fixpoint sum_sq_from (mean : F) (acc : pyval F) (vals : list (pyval F))
  : result (pyval F) :=
  match vals with
  | [] => Ok acc
  | v :: vals' =>
      x ← to_float v;
      t ← f_pow2 (f_sub x mean);
      acc' ← py_add acc (PFloat t);
      sum_sq_from mean acc' vals'
  end.

(** The body of the loop over the columns: the mean and the standard
    deviation that are appended to [means] and [stds]. *)
Definition col_stats (c : list (pyval F)) : result (F * F) :=
  let vals := none_to_zero <$> c in
  let n := Z.of_nat (length vals) in
  s ← py_sum vals;
  mean ← py_truediv s n;
  ssq ← sum_sq_from mean (PInt 0) vals;
  var ← py_truediv ssq n;
  std ← f_pow_half var;
  Ok (mean, guard_std std).

(** The inner loop over [enumerate(r)], from index [i] on. *)
Fixpoint row_is_anom (means stds : list F) (n_sigma : F) (i : nat) (r : list (pyval F))
  : result bool :=
  match r with
  | [] => Ok false
  | v :: r' =>
      if is_none v then row_is_anom means stds n_sigma (S i) r'
      else
        mean ← index means i;
        d ← (x ← to_float v; Ok (f_sub x mean));
        std ← index stds i;
        q ← py_fdiv d std;
        if f_gtb (f_abs q) n_sigma then Ok true
        else row_is_anom means stds n_sigma (S i) r'
  end.

(** [[list(r) for r in features]]. *)
Definition rows_of (fs : features) : list (list (pyval F)) :=
  match fs with
  | FList rows => rows
  | FArray arr => (fun r : list F => PFloat <$> r) <$> arr
  end.

Definition py_heuristic_mask (n_sigma : F) (fs : features) : result (list bool) :=
  let rows := rows_of fs in
  match rows with
  | [] => Ok []
  | _ =>
      stats ← map_result col_stats (zip_star rows);
      map_result (row_is_anom (stats.*1) (stats.*2) n_sigma 0) rows
  end.

Definition _heuristic_mask (env : Env) (self : AnomalyDetector) (fs : features)
  : result (list bool) :=
  match numpy env with
  | Some np => np_heuristic_mask np (n_sigma self) fs
  | None => py_heuristic_mask (n_sigma self) fs
  end.

(** *** detect *)

(** [[r.get("failed_logins", 0), r.get("requests", 0)]]. *)
Definition feature_row (r : gmap string (pyval F)) : list (pyval F) :=
  [get_default r "failed_logins" (PInt 0); get_default r "requests" (PInt 0)].

(** Lines 42 to 50. [df] is a list of dictionaries, as every caller passes
    it: [df[["failed_logins", "requests"]]] raises TypeError on a list and
    the handler builds the matrix. *)
Definition extract_features (env : Env) (df : list (gmap string (pyval F)))
  : result features :=
  let rows := df in
  match numpy env with
  | Some np => FArray <$> np_array np (feature_row <$> rows)
  | None => Ok (FList (feature_row <$> rows))
  end.

(** Lines 52 to 63; the detector comes back with its model refitted. *)
Definition compute_mask (env : Env) (self : AnomalyDetector) (fs : features)
  : AnomalyDetector * result (list bool) :=
  match sklearn env, model self with
  | Some sk, Some m =>
      let m' := (fit sk m fs).1 in
      let fitted : result unit := (fit sk m fs).2 in
      ({| contamination := contamination self; n_sigma := n_sigma self; model := Some m' |},
       try_except
         (_ ← fitted;
          preds ← predict sk m' fs;
          Ok ((fun p : Z => p =? -1) <$> (preds : list Z)))
         (_heuristic_mask env self fs))
  | _, _ => (self, _heuristic_mask env self fs)
  end.

(** Lines 81 to 83: the loop over [enumerate(mask)], from index [idx] on. *)
Fixpoint collect (rows : list (gmap string (pyval F))) (idx : nat) (mask : list bool)
  : list (gmap string (pyval F)) :=
  match mask with
  | [] => []
  | is_anom :: mask' =>
      (if is_anom && (idx <? length rows)%nat then option_list (rows !! idx) else [])
      ++ collect rows (S idx) mask'
  end.

Definition detect (env : Env) (self : AnomalyDetector) (df : list (gmap string (pyval F)))
  : AnomalyDetector * result (list (gmap string (pyval F))) :=
  match extract_features env df with
  | Raise e => (self, Raise e)
  | Ok fs =>
      let '(self', mask) := compute_mask env self fs in
      (self', mask ← mask; Ok (collect df 0 mask))
  end.

End AnomalyDetector.

Arguments features F : clear implicits.
Arguments NumpyApi F : clear implicits.
Arguments SklearnApi F Model : clear implicits.
Arguments Env F Model : clear implicits.
Arguments AnomalyDetector F Model : clear implicits.

End AnomalyDetector.

(** * The callers and the helpers around the detection engine *)

(** ** Masking of the API key

    [_mask_key] of [config/settings.py] and of [collector/log_collector.py],
    which have the same body. A string is the list of its characters; [None]
    is the key that [settings] may pass. *)

Module Settings.

Definition _mask_key (key : option (list ascii)) : list ascii :=
  match key with
  | None | Some [] => []
  | Some key =>
      if (length key <=? 8)%nat then replicate (length key) "*"%char
      else take 4 key
           ++ replicate (length key - 8) "*"%char
           ++ drop (length key - 4) key
  end.

End Settings.

(** ** ThreatAgent.analyze

    Without pandas the rows go to the rule engine behind the adapter classes
    of the method, whose rows read a missing column as [None]; the agent is
    its detector, the rule engine has no state. *)

Module ThreatAgent.

Section ThreatAgent.

Context {F : Type} `{!PyFloat F} {Model : Type}.

Definition analyze (env : AnomalyDetector.Env F Model)
    (self : AnomalyDetector.AnomalyDetector F Model)
    (df : list (gmap string (pyval F)))
  : AnomalyDetector.AnomalyDetector F Model
    * result (list (gmap string (pyval F)) * list (gmap string (pyval F))) :=
  let rows := df in
  match RuleEngine.check_rules rows with
  | Raise e => (self, Raise e)
  | Ok rule_alerts =>
      let run := AnomalyDetector.detect env self rows in
      (run.1, anomaly_alerts ← run.2; Ok (rule_alerts, anomaly_alerts))
  end.

End ThreatAgent.

End ThreatAgent.

(** ** The pipeline script

    The loop of [run_pipeline.main] that drops the records seen before, lines
    43 to 52. [dumps] is [json.dumps(r, sort_keys=True, default=str)], which
    is total on the records that [json.load] and the parser produce. *)

Module RunPipeline.

Section Dedupe.

Context {R : Type} (dumps : R -> string).

Fixpoint dedupe_loop (seen : gset string) (unique : list R) (parsed : list R) : list R :=
  match parsed with
  | [] => unique
  | r :: parsed' =>
      let key := dumps r in
      if bool_decide (key ∈ seen) then dedupe_loop seen unique parsed'
      else dedupe_loop ({[key]} ∪ seen) (unique ++ [r]) parsed'
  end.

Definition dedupe (parsed : list R) : list R := dedupe_loop ∅ [] parsed.

End Dedupe.

End RunPipeline.

(** ** The parser without pandas

    [LogParser.parse], lines 27 to 43. [fromisoformat] is
    [datetime.fromisoformat], [None] where it raises; a parsed record holds
    the values of the entry and, under ["timestamp"], a datetime. *)

Module LogParser.

Section LogParser.

Context {F : Type} `{!PyFloat F} {DT : Type} (fromisoformat : string -> option DT).

Inductive value : Type :=
| Plain (v : pyval F)
| Datetime (d : DT).

(** [ts.replace('Z', '+00:00')]. *)
Fixpoint replace_Z (ts : string) : string :=
  match ts with
  | EmptyString => EmptyString
  | String c ts' =>
      if Ascii.eqb c "Z" then String.append "+00:00" (replace_Z ts')
      else String c (replace_Z ts')
  end.

(** The value stored under ["timestamp"] by the [try] statement: a value
    that is not a string has no [replace], and every exception gives
    [None]. *)
Definition parse_timestamp (ts : pyval F) : value :=
  if truthy ts then
    match ts with
    | PStr s =>
        match fromisoformat (replace_Z s) with
        | Some d => Datetime d
        | None => Plain PNone
        end
    | _ => Plain PNone
    end
  else Plain PNone.

(** [if v is None: e[k] = 'unknown']. *)
Definition fill_unknown (v : value) : value :=
  match v with
  | Plain PNone => Plain (PStr "unknown")
  | _ => v
  end.

Definition parse_entry (entry : gmap string (pyval F)) : gmap string value :=
  let e := Plain <$> entry in
  let ts := get entry "timestamp" in
  let e := <["timestamp" := parse_timestamp ts]> e in
  fill_unknown <$> e.

Definition parse (logs : list (gmap string (pyval F))) : list (gmap string value) :=
  parse_entry <$> logs.

End LogParser.

Arguments value F DT : clear implicits.

End LogParser.

(** * Reference definitions

    What the design document says each component computes, in its words;
    the properties below compare them with the code. *)

Section Reference.

Context {F : Type} `{!PyFloat F}.

(** The alerts that the brute-force rule owes to the rows, given the coerced
    count of each: one alert for a count above 5, in the order of the rows. *)
Definition brute_force_alerts (rows : list (gmap string (pyval F))) (counts : list Z)
  : list (gmap string (pyval F)) :=
  omap (fun rc : gmap string (pyval F) * Z =>
          if 5 <? rc.2
          then Some {[ "type" := PStr "Brute Force";
                       "ip" := get rc.1 "ip";
                       "failed_logins" := PInt rc.2 ]}
          else None)
       (zip rows counts).

(** The aggregated record of the design document: requests counts the
    events of the actor and failed_logins those of them whose kind is
    ["failed_login"]. *)
Definition same_actor (k : pyval F) (r : gmap string (pyval F)) : bool :=
  py_eqb k (Aggregator.resolve_actor r).

Definition count_events (p : gmap string (pyval F) -> bool)
    (logs : list (gmap string (pyval F))) : Z :=
  Z.of_nat (length (List.filter p logs)).

Definition actor_entry (logs : list (gmap string (pyval F))) (k : pyval F)
  : Aggregator.entry F :=
  {| Aggregator.ip := k;
     Aggregator.failed_logins :=
       count_events (fun r => same_actor k r && Aggregator.is_failed_login r) logs;
     Aggregator.requests := count_events (same_actor k) logs |}.

(** The distinct actor identifiers, in the order in which they are first
    seen. *)
Definition note_actor (seen : list (pyval F)) (k : pyval F) : list (pyval F) :=
  if existsb (fun k' => py_eqb k' k) seen then seen else seen ++ [k].

Definition actors (logs : list (gmap string (pyval F))) : list (pyval F) :=
  fold_left note_actor (Aggregator.resolve_actor <$> logs) [].

Definition aggregated_records (logs : list (gmap string (pyval F)))
  : list (gmap string (pyval F)) :=
  (fun k => Aggregator.entry_dict (actor_entry logs k)) <$> actors logs.

(** Both increments of one turn of the aggregation loop. *)
Definition bump (failed : bool) (e : Aggregator.entry F) : Aggregator.entry F :=
  {| Aggregator.ip := Aggregator.ip e;
     Aggregator.failed_logins := Aggregator.failed_logins e + (if failed then 1 else 0);
     Aggregator.requests := Aggregator.requests e + 1 |}.

(** The events whose actor identifier is not a float. *)
Definition plain_actor_ids (logs : list (gmap string (pyval F))) : bool :=
  forallb (fun r => negb (is_float (Aggregator.resolve_actor r))) logs.

(** The invariant of an aggregated record. *)
Definition counters_ok (e : Aggregator.entry F) : Prop :=
  0 <= Aggregator.failed_logins e <= Aggregator.requests e.

(** A stored count that is missing, [None], ["unknown"], or a string that
    [int] does not accept. *)
Definition malformed_count (v : option (pyval F)) : bool :=
  match v with
  | None | Some PNone => true
  | Some (PStr s) =>
      String.eqb s "unknown" || match str_to_int s with Some _ => false | None => true end
  | Some _ => false
  end.

(** The HeuristicStrategy of the design document, on a batch of rows of two
    feature values. *)

(** The values of feature [j] over all rows. *)
Definition column (j : nat) (rows : list (list (pyval F))) : list (pyval F) :=
  omap (fun r : list (pyval F) => r !! j) rows.

(** The population mean: the sum over the rows, divided by [n]. *)
Definition population_mean (xs : list (pyval F)) : result F :=
  s ← py_sum xs;
  py_truediv s (Z.of_nat (length xs)).

Definition squared_deviation (mean : F) (x : pyval F) : result (pyval F) :=
  v ← to_float x;
  t ← f_pow2 (f_sub v mean);
  Ok (PFloat t).

(** The population standard deviation: the sum of the squared deviations is
    divided by [n], not by [n - 1]. *)
Definition population_std (xs : list (pyval F)) : result F :=
  mean ← population_mean xs;
  sq ← map_result (squared_deviation mean) xs;
  ssq ← py_sum sq;
  var ← py_truediv ssq (Z.of_nat (length xs));
  f_pow_half var.

(** Epsilon [1e-8] stands in for a standard deviation that is exactly 0. *)
Definition std_or_epsilon (std : F) : F :=
  if f_eq_int std 0 then f_eps else std.

Definition feature_stats (xs : list (pyval F)) : result (F * F) :=
  mean ← population_mean xs;
  std ← population_std xs;
  Ok (mean, std_or_epsilon std).

(** The absolute z-score of a value. *)
Definition abs_zscore (x : pyval F) (stats : F * F) : result F :=
  v ← to_float x;
  z ← py_fdiv (f_sub v stats.1) stats.2;
  Ok (f_abs z).

Definition exceeds (n_sigma : F) (x : pyval F) (stats : F * F) : result bool :=
  z ← abs_zscore x stats;
  Ok (f_gtb z n_sigma).

(** A row is anomalous when the z-score of its first feature or that of its
    second feature exceeds [n_sigma]. *)
Definition anomalous (n_sigma : F) (stats0 stats1 : F * F) (row : list (pyval F))
  : result bool :=
  match row with
  | [x0; x1] =>
      b0 ← exceeds n_sigma x0 stats0;
      b1 ← exceeds n_sigma x1 stats1;
      Ok (b0 || b1)
  | _ => Raise IndexError
  end.

Definition heuristic_reference (n_sigma : F) (rows : list (list (pyval F)))
  : result (list bool) :=
  stats0 ← feature_stats (column 0 rows);
  stats1 ← feature_stats (column 1 rows);
  map_result (anomalous n_sigma stats0 stats1) rows.

(** A non-empty batch of rows of two values, none of them [None]. *)
Definition row_ok (r : list (pyval F)) : bool :=
  (length r =? 2)%nat && forallb (fun v => negb (is_none v)) r.

Definition two_feature_batch (rows : list (list (pyval F))) : bool :=
  match rows with
  | [] => false
  | _ => forallb row_ok rows
  end.

(** The records at the positions where the mask holds, in their order. *)
Definition masked (mask : list bool) (rows : list (gmap string (pyval F)))
  : list (gmap string (pyval F)) :=
  omap (fun br : bool * gmap string (pyval F) => if br.1 then Some br.2 else None)
       (zip mask rows).

End Reference.

(** * Concrete runs

    Records and environments on which the definitions are evaluated, with
    the IEEE arithmetic. *)

Module Examples.

Import AnomalyDetector.

Definition record_of (ip : string) (failed_logins requests : Z)
  : gmap string (pyval float) :=
  {[ "ip" := PStr ip;
     "failed_logins" := PInt failed_logins;
     "requests" := PInt requests ]}.

(** Neither numpy nor scikit-learn is installed. *)
Definition plain_env : Env float unit := {| numpy := None; sklearn := None |}.

Definition detector (n_sigma : float) : AnomalyDetector float unit :=
  {| contamination := 0.1%float; n_sigma := n_sigma; model := None |}.

(** Nine records of actor A and one of actor J. *)
Definition ten_records : list (gmap string (pyval float)) :=
  replicate 9 (record_of "A" 1 10) ++ [record_of "J" 100 10].

(** A record without the field [failed_logins], and one that holds [None]
    there. *)
Definition record_without_count : gmap string (pyval float) :=
  {[ "ip" := PStr "K"; "requests" := PInt 10 ]}.





(** A scikit-learn whose [fit] raises. *)
Definition raising_sklearn : SklearnApi float unit :=
  {| IsolationForest := fun _ => Ok ();
     fit := fun m _ => (m, Raise ValueError);
     predict := fun _ _ => Ok [] |}.

Definition sklearn_env : Env float unit :=
  {| numpy := None; sklearn := Some raising_sklearn |}.

Definition fitted_detector : AnomalyDetector float unit :=
  {| contamination := 0.1%float; n_sigma := 3%float; model := Some () |}.

Definition unknown_count_record : gmap string (pyval float) :=
  {[ "ip" := PStr "9.9.9.9"; "failed_logins" := PStr "unknown"; "requests" := PInt 50 ]}.

Definition infinite_count_record : gmap string (pyval float) :=
  {[ "ip" := PStr "9.9.9.9"; "failed_logins" := PFloat infinity; "requests" := PInt 50 ]}.

Definition three_events : list (gmap string (pyval float)) :=
  [ {[ "ip" := PStr "1.1.1.1"; "event" := PStr "failed_login" ]};
    {[ "ip" := PStr "1.1.1.1"; "event" := PStr "login" ]};
    {[ "ip" := PStr "2.2.2.2"; "event" := PStr "login" ]} ].

End Examples.

(** * Reference definitions for the callers *)

Section CallerReference.

Context {F : Type} `{!PyFloat F}.

(** The int stored under a key of a record, 0 when there is none. *)
Definition int_field (k : string) (r : gmap string (pyval F)) : Z :=
  match r !! k with
  | Some (PInt z) => z
  | _ => 0
  end.

(** The sum of a quantity over a list. *)
Definition total {A : Type} (f : A -> Z) (l : list A) : Z :=
  foldr (fun x acc => f x + acc) 0 l.

(** The alert that an actor owes to its failed logins among the events. *)
Definition actor_alert (logs : list (gmap string (pyval F))) (k : pyval F)
  : option (gmap string (pyval F)) :=
  let failed :=
    count_events (fun r => same_actor k r && Aggregator.is_failed_login r) logs in
  if 5 <? failed
  then Some {[ "type" := PStr "Brute Force"; "ip" := k; "failed_logins" := PInt failed ]}
  else None.

Definition is_str (v : pyval F) : bool :=
  match v with PStr _ => true | _ => false end.

(** The stored value that [detect] reads as the first feature. *)
Definition count_feature (r : gmap string (pyval F)) : pyval F :=
  get_default r "failed_logins" (PInt 0).

End CallerReference.

(** A parsed record as the aggregation loops of [main] and of
    [run_pipeline.main] read it. They call [r.get] on ['source_ip'], ['ip']
    and ['event']; the datetime, which the parser stores under ['timestamp']
    only, has no counterpart among the values and is left out. *)
Definition plain_fields {F DT : Type} (r : gmap string (LogParser.value F DT))
  : gmap string (pyval F) :=
  omap (fun v => match v with
                 | LogParser.Plain p => Some p
                 | LogParser.Datetime _ => None
                 end) r.

(** * Concrete runs of the callers *)

Module CallerExamples.

Import Examples.

Definition short_key : list ascii := list_ascii_of_string "secret".

Definition long_key : list ascii := list_ascii_of_string "sk-1234567890abcdef".

(** Seven failed logins of one address and one login of another. *)
Definition seven_failures : list (gmap string (pyval float)) :=
  replicate 7 {[ "ip" := PStr "6.6.6.6"; "event" := PStr "failed_login" ]}
  ++ [ {[ "source_ip" := PStr "7.7.7.7"; "event" := PStr "login" ]} ].

(** The ten records of [ten_records] under other names. *)
Definition renamed_records : list (gmap string (pyval float)) :=
  replicate 9 (record_of "B" 1 10) ++ [record_of "K" 100 10].

(** An entry of the log whose ['source_ip'] is [null]. *)
Definition null_source_entry : gmap string (pyval float) :=
  {[ "timestamp" := PStr "2026-02-14T10:00:00Z";
     "source_ip" := PNone;
     "ip" := PStr "1.2.3.4";
     "event" := PStr "failed_login" ]}.

Definition plain_entry : gmap string (pyval float) :=
  {[ "timestamp" := PStr "2026-02-14T10:00:00Z";
     "ip" := PStr "1.2.3.4";
     "event" := PStr "failed_login" ]}.

(** Two records that are their own serialized forms. *)
Definition two_lines : list string := ["a"; "b"].

(** A [fromisoformat] that accepts every string and keeps its text. *)
Definition keep_text (s : string) : option string := Some s.

End CallerExamples.

(** * numpy

    The detector takes three things from numpy: [np.array] on the nested
    list of feature values, and the reductions [np.nanmean] and [np.nanstd]
    along axis 0. The laws say what the library documents for numbers; the
    model is a numpy that keeps them. *)

Section NumpyLaws.

Context {F : Type} `{!PyFloat F}.

(** The rows of an array, each value as a Python float. *)
Definition float_rows (arr : list (list F)) : list (list (pyval F)) :=
  (fun r : list F => PFloat <$> r) <$> arr.

(** An array of [w] columns without NaN, the float that differs from
    itself. *)
Definition regular_array (w : nat) (arr : list (list F)) : bool :=
  forallb (fun r : list F => (length r =? w)%nat && forallb (fun x => f_eqb x x) r) arr.

(** [arr] holds, row by row and in their order, the values of the nested
    list [rows] as floats. *)
Definition array_of (rows : list (list (pyval F))) (arr : list (list F)) : Prop :=
  Forall2 (Forall2 (fun v x => to_float v = Ok x)) rows arr.

(** [np.array] keeps the rows and their order; on an array without NaN
    [np.nanmean] is the mean of each column and [np.nanstd], whose [ddof] is
    0, its population standard deviation, wherever the interpreter's own
    arithmetic computes them without raising. *)
Record numpy_laws (np : AnomalyDetector.NumpyApi F) : Prop := {
  np_array_rows : forall rows arr,
    AnomalyDetector.np_array np rows = Ok arr -> array_of rows arr;
  np_nanmean_mean : forall w arr j m,
    regular_array w arr = true ->
    population_mean (column j (float_rows arr)) = Ok m ->
    AnomalyDetector.np_nanmean np arr !! j = Some m;
  np_nanstd_std : forall w arr j s,
    regular_array w arr = true ->
    population_std (column j (float_rows arr)) = Ok s ->
    AnomalyDetector.np_nanstd np arr !! j = Some s
}.

End NumpyLaws.

(** A numpy on binary64. A nested list with a value that is no number makes
    an array of objects or of strings, on which the reductions raise
    TypeError; the model raises it when the array is made. *)

Module NumpyModel.

Definition array (rows : list (list (pyval float))) : result (list (list float)) :=
  map_result (map_result to_float) rows.

Definition not_nan (x : float) : bool := PrimFloat.eqb x x.

Definition width (arr : list (list float)) : nat :=
  match arr with
  | [] => 0%nat
  | r :: _ => length r
  end.

(** The values of column [j] that the reductions see: those that are not
    NaN. *)
Definition seen (j : nat) (arr : list (list float)) : list float :=
  List.filter not_nan (omap (fun r : list float => r !! j) arr).

Definition add_all (xs : list float) : float :=
  fold_left PrimFloat.add xs PrimFloat.zero.

(** The mean of no value is [0 / 0], a NaN. *)
Definition mean (xs : list float) : float :=
  PrimFloat.div (add_all xs) (IEEE.of_Z (Z.of_nat (length xs))).

Definition variance (xs : list float) : float :=
  let m := mean xs in
  mean ((fun x => let d := PrimFloat.sub x m in PrimFloat.mul d d) <$> xs).

(** The square root of a variance, which is never the negative zero. *)
Definition root (x : float) : float :=
  if is_zero x then PrimFloat.zero else PrimFloat.sqrt x.

Definition nanmean (arr : list (list float)) : list float :=
  (fun j => mean (seen j arr)) <$> seq 0 (width arr).

Definition nanstd (arr : list (list float)) : list float :=
  (fun j => root (variance (seen j arr))) <$> seq 0 (width arr).

Definition api : AnomalyDetector.NumpyApi float :=
  {| AnomalyDetector.np_array := array;
     AnomalyDetector.np_nanmean := nanmean;
     AnomalyDetector.np_nanstd := nanstd |}.

End NumpyModel.

Module NumpyExamples.

Import AnomalyDetector Examples.

(** numpy is installed, scikit-learn is not. *)
Definition numpy_env : Env float unit :=
  {| numpy := Some NumpyModel.api; sklearn := None |}.

Definition ten_rows : list (list float) :=
  replicate 9 [1%float; 10%float] ++ [[100%float; 10%float]].

End NumpyExamples.

(** * Properties *)

(** ** The error monad *)

Section ResultFacts.

Context {A B : Type}.

Lemma map_result_ok (f : A -> result B) (l : list A) (l' : list B) :
  map_result f l = Ok l' <-> Forall2 (fun x y => f x = Ok y) l l'.
Proof.
  revert l'. induction l as [|x l IH]; intros l'; simpl.
  - split.
    + intros [= <-]. constructor.
    + intros Hl. inversion Hl. reflexivity.
  - destruct (f x) as [y|e] eqn:Hy; simpl.
    + destruct (map_result f l) as [ys|e] eqn:Hys; simpl.
      * split.
        -- intros [= <-]. constructor; [exact Hy | apply IH; reflexivity].
        -- intros Hl. inversion Hl as [|? y' ? ys' Hy' Hys']; subst.
           apply IH in Hys'. congruence.
      * split; [discriminate|].
        intros Hl. inversion Hl as [|? y' ? ys' Hy' Hys']; subst.
        apply IH in Hys'. discriminate.
    + split; [discriminate|].
      intros Hl. inversion Hl; subst. congruence.
Qed.

Lemma map_result_ext (f g : A -> result B) (l : list A) :
  Forall (fun x => f x = g x) l -> map_result f l = map_result g l.
Proof.
  induction 1 as [|x l Hx _ IH]; simpl; [reflexivity|].
  rewrite Hx, IH. reflexivity.
Qed.

End ResultFacts.

(** ** The rule engine *)

Section RuleEngineFacts.

Context {F : Type} `{!PyFloat F}.

Import RuleEngine.

Lemma check_rules_loop_spec (rows alerts : list (gmap string (pyval F))) :
  check_rules_loop rows alerts =
  counts ← map_result (fun row => coerce (get row "failed_logins")) rows;
  Ok (alerts ++ brute_force_alerts rows counts).
Proof.
  revert alerts. induction rows as [|row rows IH]; intros alerts; simpl.
  - unfold brute_force_alerts. simpl. rewrite app_nil_r. reflexivity.
  - destruct (coerce (get row "failed_logins")) as [z|e]; simpl; [|reflexivity].
    rewrite IH.
    destruct (map_result _ rows) as [zs|e]; simpl; [|reflexivity].
    unfold brute_force_alerts. simpl. destruct (5 <? z); simpl.
    + rewrite <- app_assoc. reflexivity.
    + reflexivity.
Qed.

Lemma coerce_str (s : string) :
  coerce (F:=F) (PStr s) =
  Ok (if String.eqb s "unknown" then 0 else default 0 (str_to_int s)).
Proof.
  unfold coerce. simpl. destruct (String.eqb s "unknown"); [reflexivity|].
  destruct (str_to_int s); reflexivity.
Qed.

Lemma map_result_fmap_ok {A B C : Type} (f : B -> result C) (g : A -> B) (h : A -> C)
    (l : list A) :
  (forall x, f (g x) = Ok (h x)) -> map_result f (g <$> l) = Ok (h <$> l).
Proof.
  intros Hfg. induction l as [|x l IH]; [reflexivity|].
  rewrite !fmap_cons. simpl. rewrite Hfg, IH. reflexivity.
Qed.

(** C3. For every sequence of records, [check_rules] yields, in the order of
    the records, exactly one alert
    [{type: "Brute Force", ip: <the record's ip>, failed_logins: <count>}]
    for each record whose coerced [failed_logins] is greater than 5 and no
    alert for a record whose coerced count is at most 5; it raises exactly
    when a coercion does, which no record of the aggregation makes it do. *)
Theorem check_rules_brute_force :
  (forall df : list (gmap string (pyval F)),
     check_rules df =
     counts ← map_result (fun row => coerce (get row "failed_logins")) df;
     Ok (brute_force_alerts df counts)) /\
  (forall entries : list (Aggregator.entry F),
     check_rules (Aggregator.entry_dict <$> entries) =
     Ok (brute_force_alerts (Aggregator.entry_dict <$> entries)
                            (Aggregator.failed_logins <$> entries))).
Proof.
  split.
  - intros df. unfold check_rules. rewrite check_rules_loop_spec. reflexivity.
  - intros entries. unfold check_rules. rewrite check_rules_loop_spec.
    rewrite (map_result_fmap_ok _ _ Aggregator.failed_logins); [reflexivity|].
    intros e. reflexivity.
Qed.

End RuleEngineFacts.

(** ** Equality of dictionary keys *)

Section KeyFacts.

Context {F : Type} `{!PyFloat F}.

Lemma py_eqb_refl (a : pyval F) : is_float a = false -> py_eqb a a = true.
Proof.
  destruct a as [|b|z|f|s]; intros Ha; try discriminate; simpl.
  - reflexivity.
  - destruct b; reflexivity.
  - apply Z.eqb_refl.
  - apply String.eqb_refl.
Qed.

Lemma py_eqb_sym (a b : pyval F) :
  is_float a = false -> is_float b = false -> py_eqb a b = py_eqb b a.
Proof.
  destruct a as [|x|x|x|x], b as [|y|y|y|y]; intros Ha Hb;
    try discriminate; simpl; try reflexivity.
  - apply Z.eqb_sym.
  - apply Z.eqb_sym.
  - apply Z.eqb_sym.
  - apply Z.eqb_sym.
  - apply String.eqb_sym.
Qed.

Lemma py_eqb_trans (a b c : pyval F) :
  is_float a = false -> is_float b = false -> is_float c = false ->
  py_eqb a b = true -> py_eqb b c = true -> py_eqb a c = true.
Proof.
  destruct a as [|x|x|x|x], b as [|y|y|y|y], c as [|z|z|z|z]; intros Ha Hb Hc;
    try discriminate; simpl; intros H1 H2; try reflexivity; try discriminate;
    rewrite ?Z.eqb_eq, ?String.eqb_eq in *; congruence.
Qed.

End KeyFacts.

(** ** The aggregation loop *)

Section AggregatorFacts.

Context {F : Type} `{!PyFloat F}.

Import Aggregator.

#[local] Abbreviation all_plain logs :=
  (Forall (fun r => is_float (resolve_actor r) = false) logs).

Lemma find_key_lookup (k : pyval F) (agg : list (pyval F * entry F)) (i : nat) :
  find_key k agg = Some i ->
  exists k' e, agg !! i = Some (k', e) /\ py_eqb k' k = true.
Proof.
  revert i. induction agg as [|[k' e] agg IH]; intros i; simpl; [discriminate|].
  destruct (py_eqb k' k) eqn:Hk.
  - intros [= <-]. exists k', e. split; [reflexivity | exact Hk].
  - destruct (find_key k agg) as [j|]; [|discriminate].
    intros [= <-]. apply (IH j). reflexivity.
Qed.

Lemma find_key_none (k : pyval F) (agg : list (pyval F * entry F)) :
  find_key k agg = None <-> existsb (fun k' => py_eqb k' k) (agg.*1) = false.
Proof.
  induction agg as [|[k' e] agg IH]; simpl; [tauto|].
  destruct (py_eqb k' k); simpl.
  - split; discriminate.
  - rewrite <- IH. destruct (find_key k agg); simpl; split; congruence.
Qed.

(** One turn of the loop: the entry of the actor is bumped where it is, or a
    new entry is appended. *)
Lemma step_spec (agg : list (pyval F * entry F)) (r : gmap string (pyval F)) :
  step agg r =
  let k := resolve_actor r in
  match find_key k agg with
  | Some i => alter (prod_map id (bump (is_failed_login r))) i agg
  | None =>
      agg ++ [(k, bump (is_failed_login r)
                    {| ip := k; failed_logins := 0; requests := 0 |})]
  end.
Proof.
  unfold step, setdefault. simpl.
  destruct (find_key (resolve_actor r) agg) as [i|] eqn:Hf.
  - destruct (is_failed_login r).
    + rewrite list_alter_alter_eq. apply list_alter_ext; [|reflexivity].
      intros [k e] _. unfold bump, prod_map, incr_requests, incr_failed_logins; simpl.
      rewrite ?Z.add_0_r. reflexivity.
    + apply list_alter_ext; [|reflexivity].
      intros [k e] _. unfold bump, prod_map, incr_requests, incr_failed_logins; simpl.
      rewrite ?Z.add_0_r. reflexivity.
  - replace (length agg) with (length agg + 0)%nat by lia.
    destruct (is_failed_login r).
    + rewrite !alter_app_r. reflexivity.
    + rewrite !alter_app_r. reflexivity.
Qed.

Lemma bump_counters_ok (failed : bool) (e : entry F) :
  counters_ok e -> counters_ok (bump failed e).
Proof. unfold counters_ok, bump. destruct failed; simpl; lia. Qed.

Lemma step_counters_ok (agg : list (pyval F * entry F)) (r : gmap string (pyval F)) :
  Forall (fun ke => counters_ok ke.2) agg ->
  Forall (fun ke => counters_ok ke.2) (step agg r).
Proof.
  intros Hagg. rewrite step_spec. simpl.
  destruct (find_key (resolve_actor r) agg) as [i|].
  - apply Forall_alter; [exact Hagg|].
    intros [k e] _ He. simpl in *. apply bump_counters_ok, He.
  - apply Forall_app. split; [exact Hagg|].
    constructor; [|constructor]. simpl.
    apply bump_counters_ok. unfold counters_ok. simpl. lia.
Qed.

Lemma fold_step_counters_ok (logs : list (gmap string (pyval F)))
    (agg : list (pyval F * entry F)) :
  Forall (fun ke => counters_ok ke.2) agg ->
  Forall (fun ke => counters_ok ke.2) (fold_left step logs agg).
Proof.
  revert agg. induction logs as [|r logs IH]; intros agg Hagg; simpl.
  - exact Hagg.
  - apply IH, step_counters_ok, Hagg.
Qed.

(** C5. For every sequence of raw events, every record that the aggregation
    produces holds two integer counters with
    [0 <= failed_logins <= requests]. *)
Theorem aggregate_requests_ge_failed_logins (logs : list (gmap string (pyval F))) :
  Forall (fun rec : gmap string (pyval F) =>
            exists failed requests : Z,
              rec !! "failed_logins" = Some (PInt failed) /\
              rec !! "requests" = Some (PInt requests) /\
              0 <= failed <= requests)
         (aggregate logs).
Proof.
  unfold aggregate, aggregate_entries.
  rewrite Forall_fmap, Forall_fmap.
  eapply Forall_impl; [apply fold_step_counters_ok; constructor|].
  intros [k e] He. simpl in *.
  exists (failed_logins e), (requests e). split; [|split].
  - reflexivity.
  - reflexivity.
  - exact He.
Qed.


Lemma count_events_snoc (p : gmap string (pyval F) -> bool)
    (logs : list (gmap string (pyval F))) (r : gmap string (pyval F)) :
  count_events p (logs ++ [r]) = count_events p logs + (if p r then 1 else 0).
Proof.
  unfold count_events. rewrite List.filter_app, length_app. simpl.
  destruct (p r); simpl; lia.
Qed.

Lemma count_events_zero (p : gmap string (pyval F) -> bool)
    (logs : list (gmap string (pyval F))) :
  Forall (fun r => p r = false) logs -> count_events p logs = 0.
Proof.
  unfold count_events. induction 1 as [|r logs Hr _ IH]; simpl; [reflexivity|].
  rewrite Hr. exact IH.
Qed.

Lemma actors_snoc (logs : list (gmap string (pyval F))) (r : gmap string (pyval F)) :
  actors (logs ++ [r]) = note_actor (actors logs) (resolve_actor r).
Proof. unfold actors. rewrite fmap_app, fold_left_app. reflexivity. Qed.

Lemma actor_entry_snoc (logs : list (gmap string (pyval F)))
    (r : gmap string (pyval F)) (k : pyval F) :
  actor_entry (logs ++ [r]) k =
  if same_actor k r then bump (is_failed_login r) (actor_entry logs k)
  else actor_entry logs k.
Proof.
  unfold actor_entry, bump. rewrite !count_events_snoc. simpl.
  destruct (same_actor k r); simpl.
  - reflexivity.
  - rewrite !Z.add_0_r. reflexivity.
Qed.

Lemma plain_actor_ids_spec (logs : list (gmap string (pyval F))) :
  plain_actor_ids logs = true <-> all_plain logs.
Proof.
  unfold plain_actor_ids. rewrite forallb_forall, Forall_forall.
  split; intros Hall r Hr.
  - apply negb_true_iff, Hall, list_elem_of_In, Hr.
  - apply negb_true_iff, Hall, list_elem_of_In, Hr.
Qed.

Lemma all_plain_snoc (logs : list (gmap string (pyval F)))
    (r : gmap string (pyval F)) :
  all_plain (logs ++ [r]) <->
  all_plain logs /\ is_float (resolve_actor r) = false.
Proof. rewrite Forall_app, Forall_singleton. reflexivity. Qed.

Lemma actors_not_float (logs : list (gmap string (pyval F))) :
  all_plain logs -> Forall (fun k => is_float k = false) (actors logs).
Proof.
  induction logs as [|r logs IH] using rev_ind; intros Hids.
  - constructor.
  - apply all_plain_snoc in Hids as [Hlogs Hr].
    rewrite actors_snoc. unfold note_actor.
    destruct (existsb _ _); [exact (IH Hlogs)|].
    apply Forall_app. split; [exact (IH Hlogs)|]. apply Forall_singleton, Hr.
Qed.

Lemma actors_cover (logs : list (gmap string (pyval F))) :
  all_plain logs ->
  Forall (fun r => existsb (fun k => py_eqb k (resolve_actor r)) (actors logs) = true)
         logs.
Proof.
  induction logs as [|r logs IH] using rev_ind; intros Hids.
  - constructor.
  - apply all_plain_snoc in Hids as [Hlogs Hr].
    rewrite actors_snoc. unfold note_actor.
    destruct (existsb _ (actors logs)) eqn:Hseen.
    + apply Forall_app. split; [exact (IH Hlogs)|].
      apply Forall_singleton. exact Hseen.
    + apply Forall_app. split.
      * eapply Forall_impl; [exact (IH Hlogs)|].
        intros r' Hr'. simpl in Hr'. rewrite existsb_app, Hr'. reflexivity.
      * apply Forall_singleton. rewrite existsb_app. simpl.
        rewrite (py_eqb_refl _ Hr). apply orb_true_iff. right. reflexivity.
Qed.

Lemma note_actor_fresh (seen : list (pyval F)) (k k' : pyval F) (n : nat) :
  existsb (fun k' => py_eqb k' k) seen = false ->
  seen !! n = Some k' -> py_eqb k' k = false.
Proof.
  intros Hseen Hn. destruct (py_eqb k' k) eqn:Hk; [|reflexivity].
  rewrite <- Hseen. symmetry. apply existsb_exists. exists k'.
  split; [|exact Hk]. apply list_elem_of_In, list_elem_of_lookup. eauto.
Qed.

Lemma actors_distinct (logs : list (gmap string (pyval F))) (i j : nat)
    (ki kj : pyval F) :
  all_plain logs ->
  actors logs !! i = Some ki -> actors logs !! j = Some kj ->
  py_eqb ki kj = true -> i = j.
Proof.
  revert i j ki kj. induction logs as [|r logs IH] using rev_ind;
    intros i j ki kj Hids.
  - intros Hi. destruct i; discriminate.
  - apply all_plain_snoc in Hids as [Hlogs Hr].
    pose proof (actors_not_float logs Hlogs) as Hold.
    rewrite actors_snoc. unfold note_actor.
    destruct (existsb _ (actors logs)) eqn:Hseen; [apply IH, Hlogs|].
    intros Hi Hj Heq.
    destruct (decide (i < length (actors logs))%nat) as [Hil|Hil],
             (decide (j < length (actors logs))%nat) as [Hjl|Hjl].
    + rewrite lookup_app_l in Hi by exact Hil.
      rewrite lookup_app_l in Hj by exact Hjl. exact (IH i j ki kj Hlogs Hi Hj Heq).
    + rewrite lookup_app_l in Hi by exact Hil.
      rewrite lookup_app_r in Hj by lia.
      destruct (j - length (actors logs))%nat as [|n]; [|destruct n; discriminate].
      injection Hj as <-. rewrite (note_actor_fresh _ _ _ _ Hseen Hi) in Heq.
      discriminate.
    + rewrite lookup_app_r in Hi by lia.
      rewrite lookup_app_l in Hj by exact Hjl.
      destruct (i - length (actors logs))%nat as [|n]; [|destruct n; discriminate].
      injection Hi as <-.
      rewrite py_eqb_sym in Heq.
      * rewrite (note_actor_fresh _ _ _ _ Hseen Hj) in Heq. discriminate.
      * exact Hr.
      * exact (Forall_lookup_1 _ _ _ _ Hold Hj).
    + apply lookup_lt_Some in Hi, Hj. rewrite length_app in Hi, Hj.
      simpl in Hi, Hj. lia.
Qed.

Lemma keys_of_entries (g : pyval F -> entry F) (ks : list (pyval F)) :
  ((fun k => (k, g k)) <$> ks).*1 = ks.
Proof. induction ks as [|k ks IH]; [reflexivity|]. rewrite !fmap_cons, IH. reflexivity. Qed.

(** The dictionary after the loop holds, for each actor in first-seen order,
    the counts of its events. *)
Lemma fold_step_entries (logs : list (gmap string (pyval F))) :
  all_plain logs ->
  fold_left step logs [] = (fun k => (k, actor_entry logs k)) <$> actors logs.
Proof.
  induction logs as [|r logs IH] using rev_ind; intros Hids; [reflexivity|].
  apply all_plain_snoc in Hids as [Hlogs Hr].
  pose proof (actors_not_float logs Hlogs) as Hold.
  rewrite fold_left_app. simpl. rewrite (IH Hlogs), step_spec. simpl.
  rewrite actors_snoc. unfold note_actor.
  destruct (find_key _ _) as [i|] eqn:Hf.
  - destruct (existsb _ (actors logs)) eqn:Hseen.
    2:{ rewrite <- (keys_of_entries (actor_entry logs) (actors logs)) in Hseen.
        apply find_key_none in Hseen. congruence. }
    apply find_key_lookup in Hf as (k' & e & Hi & Hk').
    rewrite list_lookup_fmap in Hi.
    destruct (actors logs !! i) as [ki|] eqn:Hki; [|discriminate].
    injection Hi as <- <-.
    apply list_eq. intros j. rewrite list_lookup_alter, !list_lookup_fmap.
    destruct (decide (i = j)) as [<-|Hij].
    + rewrite Hki. simpl. unfold prod_map. simpl.
      rewrite actor_entry_snoc. unfold same_actor. rewrite Hk'. reflexivity.
    + destruct (actors logs !! j) as [kj|] eqn:Hkj; [|reflexivity]. simpl.
      rewrite actor_entry_snoc. unfold same_actor.
      destruct (py_eqb kj (resolve_actor r)) eqn:Hkj'; [|reflexivity].
      exfalso. apply Hij.
      apply (actors_distinct logs i j ki kj Hlogs Hki Hkj).
      apply (py_eqb_trans ki (resolve_actor r) kj).
      * exact (Forall_lookup_1 _ _ _ _ Hold Hki).
      * exact Hr.
      * exact (Forall_lookup_1 _ _ _ _ Hold Hkj).
      * exact Hk'.
      * rewrite py_eqb_sym; [exact Hkj' | exact Hr |].
        exact (Forall_lookup_1 _ _ _ _ Hold Hkj).
  - apply find_key_none in Hf. rewrite keys_of_entries in Hf. rewrite Hf.
    rewrite fmap_app. simpl. f_equal.
    + apply list_eq. intros j. rewrite !list_lookup_fmap.
      destruct (actors logs !! j) as [kj|] eqn:Hkj; [|reflexivity]. simpl.
      rewrite actor_entry_snoc. unfold same_actor.
      rewrite (note_actor_fresh _ _ _ _ Hf Hkj). reflexivity.
    + assert (Hnew : Forall (fun r' => same_actor (resolve_actor r) r' = false) logs).
      { apply Forall_forall. intros r' Hin.
        pose proof (proj1 (Forall_forall _ _) (actors_cover logs Hlogs) r' Hin) as Hr'.
        pose proof (proj1 (Forall_forall _ _) Hlogs r' Hin) as Hr'f.
        simpl in Hr', Hr'f. unfold same_actor.
        destruct (py_eqb (resolve_actor r) (resolve_actor r')) eqn:Hrr'; [|reflexivity].
        exfalso. apply existsb_exists in Hr' as (k & Hk & Hkr').
        apply list_elem_of_In, list_elem_of_lookup in Hk as [n Hn].
        pose proof (Forall_lookup_1 _ _ _ _ Hold Hn) as Hkf. simpl in Hkf.
        assert (Hkr : py_eqb k (resolve_actor r) = true).
        { apply (py_eqb_trans k (resolve_actor r') (resolve_actor r));
            [exact Hkf | exact Hr'f | exact Hr | exact Hkr' |].
          rewrite py_eqb_sym; [exact Hrr' | exact Hr'f | exact Hr]. }
        rewrite (note_actor_fresh _ _ _ _ Hf Hn) in Hkr. discriminate. }
      f_equal. f_equal. rewrite actor_entry_snoc. unfold same_actor.
      rewrite (py_eqb_refl _ Hr). f_equal.
      unfold actor_entry. f_equal.
      * symmetry. apply count_events_zero. eapply Forall_impl; [exact Hnew|].
        intros r' Hr'. simpl in Hr'. rewrite Hr'. reflexivity.
      * symmetry. apply count_events_zero, Hnew.
Qed.

(** C4. For every sequence of raw events whose actor identifiers are not
    floats, the aggregation yields one record per distinct actor identifier,
    in first-seen order; the identifier is [source_ip] when that is truthy,
    else [ip] when that is truthy, else the literal ["unknown"]; [requests]
    counts the events of the actor and [failed_logins] those of them whose
    [event] equals ["failed_login"]. On the three events of the design
    document it yields the two records given there. *)
Theorem aggregate_per_actor :
  (forall logs : list (gmap string (pyval F)),
     plain_actor_ids logs = true -> aggregate logs = aggregated_records logs) /\
  (forall r : gmap string (pyval F),
     resolve_actor r =
     if truthy (get r "source_ip") then get r "source_ip"
     else if truthy (get r "ip") then get r "ip"
     else PStr "unknown") /\
  aggregate (F:=F)
    [ {[ "ip" := PStr "1.1.1.1"; "event" := PStr "failed_login" ]};
      {[ "ip" := PStr "1.1.1.1"; "event" := PStr "login" ]};
      {[ "ip" := PStr "2.2.2.2"; "event" := PStr "login" ]} ] =
    [ {[ "ip" := PStr "1.1.1.1"; "failed_logins" := PInt 1; "requests" := PInt 2 ]};
      {[ "ip" := PStr "2.2.2.2"; "failed_logins" := PInt 0; "requests" := PInt 1 ]} ].
Proof.
  split; [|split].
  - intros logs Hids. apply plain_actor_ids_spec in Hids.
    unfold aggregate, aggregate_entries, aggregated_records.
    rewrite (fold_step_entries logs Hids), <- !list_fmap_compose.
    reflexivity.
  - intros r. unfold resolve_actor, py_or.
    destruct (truthy (get r "source_ip")) eqn:Hsrc; [rewrite Hsrc|]; reflexivity.
  - vm_compute. reflexivity.
Qed.

End AggregatorFacts.

(** ** The coercion of the rule engine *)

Section CoercionFacts.

Context {F : Type} `{!PyFloat F}.

Import RuleEngine.

Lemma malformed_count_coerce (row : gmap string (pyval F)) :
  malformed_count (row !! "failed_logins") = true ->
  coerce (get row "failed_logins") = Ok 0.
Proof.
  unfold get. destruct (row !! "failed_logins") as [[|b|z|f|s]|]; simpl;
    try discriminate; try reflexivity.
  intros Hs. rewrite coerce_str.
  destruct (String.eqb s "unknown"); [reflexivity|].
  simpl in Hs. destruct (str_to_int s); [discriminate | reflexivity].
Qed.

Lemma check_rules_loop_skip (before after alerts : list (gmap string (pyval F)))
    (row : gmap string (pyval F)) :
  coerce (get row "failed_logins") = Ok 0 ->
  check_rules_loop (before ++ row :: after) alerts =
  check_rules_loop (before ++ after) alerts.
Proof.
  intros Hrow. revert alerts.
  induction before as [|r before IH]; intros alerts; simpl.
  - rewrite Hrow. reflexivity.
  - destruct (coerce (get r "failed_logins")) as [z|e]; simpl; [apply IH | reflexivity].
Qed.

Lemma map_result_raise {A B : Type} (f : A -> result B) (l : list A) (e : exn) :
  map_result f l = Raise e -> exists x, x ∈ l /\ f x = Raise e.
Proof.
  induction l as [|x l IH]; simpl; [discriminate|].
  destruct (f x) as [y|e'] eqn:Hx; simpl.
  - destruct (map_result f l) as [ys|e']; simpl; [discriminate|].
    intros [= ->]. destruct (IH eq_refl) as (x' & Hin & Hx').
    exists x'. split; [right; exact Hin | exact Hx'].
  - intros [= ->]. exists x. split; [left | exact Hx].
Qed.

Lemma coerce_raise (v : pyval F) (e : exn) :
  coerce v = Raise e ->
  exists f, v = PFloat f /\ f_to_int f = Raise e /\ e <> TypeError /\ e <> ValueError.
Proof.
  destruct v as [|b|z|f|s]; try (simpl; discriminate).
  - unfold coerce. simpl. destruct (f_to_int f) as [z|e'] eqn:Hf; [discriminate|].
    intros He. exists f. split; [reflexivity|].
    destruct e'; try discriminate; injection He as <-;
      (split; [exact Hf | split; discriminate]).
  - rewrite coerce_str. discriminate.
Qed.

(** A record whose [failed_logins] is missing, [None], ["unknown"] or a
    string that [int] rejects is counted as 0: it yields no alert and no
    exception whatever its other fields and whatever the other records are.
    [check_rules] raises on no such value: an exception can only come from a
    stored float on which [int] raises something else than TypeError and
    ValueError. *)
Theorem malformed_count_is_zero (row : gmap string (pyval F)) :
  malformed_count (row !! "failed_logins") = true ->
  coerce (get row "failed_logins") = Ok 0 /\
  (forall before after : list (gmap string (pyval F)),
     check_rules (before ++ row :: after) = check_rules (before ++ after)) /\
  (forall (df : list (gmap string (pyval F))) (e : exn),
     check_rules df = Raise e ->
     exists (r : gmap string (pyval F)) (f : F),
       r ∈ df /\ get r "failed_logins" = PFloat f /\ f_to_int f = Raise e /\
       e <> TypeError /\ e <> ValueError).
Proof.
  intros Hrow. pose proof (malformed_count_coerce row Hrow) as Hzero.
  split; [exact Hzero|]. split.
  - intros before after. apply check_rules_loop_skip, Hzero.
  - intros df e. unfold check_rules. rewrite check_rules_loop_spec.
    destruct (map_result _ df) as [counts|e'] eqn:Hcounts; simpl; [discriminate|].
    intros [= ->]. apply map_result_raise in Hcounts as (r & Hr & Hraise).
    apply coerce_raise in Hraise as (f & Hf & Hint & Hne).
    exists r, f. split; [exact Hr|]. split; [exact Hf|]. split; [exact Hint | exact Hne].
Qed.

End CoercionFacts.

(** ** The heuristic against its reference definition *)

Section HeuristicFacts.

Context {F : Type} `{!PyFloat F} {Model : Type}.

Import AnomalyDetector.

Lemma py_add_float_acc (acc : pyval F) (t : F) :
  acc = PInt 0 \/ (exists a, acc = PFloat a) ->
  exists a', py_add acc (PFloat t) = Ok (PFloat a').
Proof.
  intros [-> | [a ->]]; unfold py_add; simpl.
  - pose proof (f_of_int_0 (F:=F)) as H0.
    destruct (f_of_int 0) as [z|e]; [|discriminate].
    simpl. eexists. reflexivity.
  - eexists. reflexivity.
Qed.

(** The generator inside [sum] and the list of squared deviations summed
    afterwards agree, also on the exception they raise. *)
Lemma sum_sq_from_spec (mean : F) (acc : pyval F) (vals : list (pyval F)) :
  acc = PInt 0 \/ (exists a, acc = PFloat a) ->
  sum_sq_from mean acc vals =
  sq ← map_result (squared_deviation mean) vals; py_sum_from acc sq.
Proof.
  revert acc. induction vals as [|v vals IH]; intros acc Hacc; simpl.
  - reflexivity.
  - unfold squared_deviation.
    destruct (to_float v) as [x|e]; simpl; [|reflexivity].
    destruct (f_pow2 (f_sub x mean)) as [t|e]; simpl; [|reflexivity].
    destruct (py_add_float_acc acc t Hacc) as [a' Ha']. rewrite Ha'. simpl.
    rewrite IH by (right; eexists; reflexivity). unfold squared_deviation.
    destruct (map_result _ vals) as [sq|e]; simpl.
    + rewrite Ha'. reflexivity.
    + reflexivity.
Qed.

Lemma none_to_zero_id (c : list (pyval F)) :
  forallb (fun v => negb (is_none v)) c = true -> none_to_zero <$> c = c.
Proof.
  induction c as [|v c IH]; [reflexivity|].
  intros Hc. simpl in Hc. apply andb_true_iff in Hc as [Hv Hc].
  rewrite fmap_cons, (IH Hc). destruct v; try discriminate; reflexivity.
Qed.

Lemma col_stats_reference (c : list (pyval F)) :
  forallb (fun v => negb (is_none v)) c = true ->
  col_stats c = feature_stats c.
Proof.
  intros Hc. unfold col_stats, feature_stats, population_std, population_mean.
  rewrite (none_to_zero_id c Hc).
  destruct (py_sum c) as [s|e]; simpl; [|reflexivity].
  destruct (py_truediv s (Z.of_nat (length c))) as [mean|e]; simpl; [|reflexivity].
  rewrite sum_sq_from_spec by (left; reflexivity).
  destruct (map_result (squared_deviation mean) c) as [sq|e]; simpl; [|reflexivity].
  fold (py_sum sq).
  destruct (py_sum sq) as [ssq|e]; simpl; [|reflexivity].
  destruct (py_truediv ssq (Z.of_nat (length c))) as [var|e]; simpl; [|reflexivity].
  destruct (f_pow_half var) as [std|e]; simpl; reflexivity.
Qed.

Lemma std_or_epsilon_nonzero (std : F) : f_eq_int (std_or_epsilon std) 0 = false.
Proof.
  unfold std_or_epsilon. destruct (f_eq_int std 0) eqn:Hstd.
  - apply f_eps_nonzero.
  - exact Hstd.
Qed.

Lemma squared_deviation_to_float (mean : F) (xs : list (pyval F)) (sq : list (pyval F)) :
  map_result (squared_deviation mean) xs = Ok sq ->
  Forall (fun x => is_ok (to_float x) = true) xs.
Proof.
  intros Hsq. apply map_result_ok in Hsq.
  induction Hsq as [|x y xs ys Hx _ IH]; constructor; [|exact IH].
  unfold squared_deviation in Hx. destruct (to_float x); [reflexivity | discriminate].
Qed.

Lemma feature_stats_ok (xs : list (pyval F)) (stats : F * F) :
  feature_stats xs = Ok stats ->
  Forall (fun x => is_ok (to_float x) = true) xs /\ f_eq_int stats.2 0 = false.
Proof.
  unfold feature_stats, population_std.
  destruct (population_mean xs) as [mean|e]; simpl; [|discriminate].
  destruct (map_result (squared_deviation mean) xs) as [sq|e] eqn:Hsq; simpl;
    [|discriminate].
  destruct (py_sum sq) as [ssq|e]; simpl; [|discriminate].
  destruct (py_truediv ssq _) as [var|e]; simpl; [|discriminate].
  destruct (f_pow_half var) as [std|e]; simpl; [|discriminate].
  intros [= <-]. split.
  - exact (squared_deviation_to_float mean xs sq Hsq).
  - apply std_or_epsilon_nonzero.
Qed.

Lemma two_feature_batch_rows (rows : list (list (pyval F))) :
  two_feature_batch rows = true -> rows <> [] /\ forallb row_ok rows = true.
Proof.
  destruct rows as [|r rows]; [discriminate|].
  intros Hrows. split; [discriminate | exact Hrows].
Qed.

Lemma row_ok_inv (r : list (pyval F)) :
  row_ok r = true ->
  exists x0 x1, r = [x0; x1] /\ is_none x0 = false /\ is_none x1 = false.
Proof.
  unfold row_ok. intros Hr. apply andb_true_iff in Hr as [Hlen Hvals].
  destruct r as [|x0 [|x1 [|x2 r]]]; try discriminate.
  simpl in Hvals. apply andb_true_iff in Hvals as [H0 Hvals].
  apply andb_true_iff in Hvals as [H1 _].
  exists x0, x1. split; [reflexivity|].
  split; apply negb_true_iff; assumption.
Qed.

Lemma zip_star_two (rows : list (list (pyval F))) :
  rows <> [] -> forallb row_ok rows = true ->
  zip_star rows = [column 0 rows; column 1 rows].
Proof.
  induction rows as [|r rows IH]; [congruence|].
  intros _ Hrows. simpl in Hrows. apply andb_true_iff in Hrows as [Hr Hrows].
  destruct (row_ok_inv r Hr) as (x0 & x1 & -> & _ & _).
  destruct rows as [|r' rows]; [reflexivity|].
  change (zip_star ([x0; x1] :: r' :: rows))
    with (zip_with cons [x0; x1] (zip_star (r' :: rows))).
  rewrite IH by (congruence || exact Hrows). reflexivity.
Qed.

Lemma column_no_none (j : nat) (rows : list (list (pyval F))) :
  forallb row_ok rows = true ->
  forallb (fun v => negb (is_none v)) (column j rows) = true.
Proof.
  induction rows as [|r rows IH]; [reflexivity|].
  intros Hrows. simpl in Hrows. apply andb_true_iff in Hrows as [Hr Hrows].
  destruct (row_ok_inv r Hr) as (x0 & x1 & -> & H0 & H1).
  unfold column in *. simpl.
  destruct j as [|[|j]]; simpl; rewrite ?H0, ?H1; simpl; apply IH, Hrows.
Qed.

Lemma column_elem (j : nat) (rows : list (list (pyval F))) (r : list (pyval F))
    (x : pyval F) :
  r ∈ rows -> r !! j = Some x -> x ∈ column j rows.
Proof.
  intros Hr Hx. unfold column. apply list_elem_of_omap. exists r. split; assumption.
Qed.

(** The loop with its [break] and the disjunction of the two tests agree on
    a row whose values convert to floats, the deviations being non-zero. *)
Lemma row_is_anom_reference (n_sigma : F) (stats0 stats1 : F * F) (x0 x1 : pyval F) :
  is_none x0 = false -> is_none x1 = false ->
  is_ok (to_float x0) = true -> is_ok (to_float x1) = true ->
  f_eq_int stats0.2 0 = false -> f_eq_int stats1.2 0 = false ->
  row_is_anom [stats0.1; stats1.1] [stats0.2; stats1.2] n_sigma 0 [x0; x1] =
  anomalous n_sigma stats0 stats1 [x0; x1].
Proof.
  intros Hn0 Hn1 Hf0 Hf1 Hs0 Hs1.
  unfold anomalous, exceeds, abs_zscore, py_fdiv. simpl.
  rewrite Hn0, Hn1. unfold index, py_fdiv. simpl.
  destruct (to_float x0) as [v0|e]; [|discriminate].
  destruct (to_float x1) as [v1|e]; [|discriminate].
  simpl. rewrite Hs0, Hs1. simpl.
  destruct (f_gtb (f_abs (f_div (f_sub v0 stats0.1) stats0.2)) n_sigma); simpl.
  - reflexivity.
  - destruct (f_gtb _ n_sigma); reflexivity.
Qed.

(** The vectorized branch has the same shape: with the column means and
    deviations that numpy returns, a row is marked exactly when one of its
    values has an absolute z-score above [n_sigma]. *)
Lemma np_heuristic_mask_per_feature (np : NumpyApi F) (n_sigma : F)
    (arr : list (list F)) :
  np_heuristic_mask np n_sigma (FArray arr) =
  Ok ((fun row : list F =>
         existsb (fun ams : F * (F * F) =>
                    f_gtb (f_abs (f_div (f_sub ams.1 ams.2.1) ams.2.2)) n_sigma)
                 (zip row (zip (np_nanmean np arr) (guard_std <$> np_nanstd np arr))))
      <$> arr).
Proof.
  unfold np_heuristic_mask. simpl. f_equal.
  rewrite <- list_fmap_compose. apply list_fmap_ext. intros _ row _. simpl.
  unfold np_zscores.
  generalize (zip (np_nanmean np arr) (guard_std <$> np_nanstd np arr)).
  intros stats. revert stats.
  induction row as [|a row IH]; intros [|ms stats]; simpl; try reflexivity.
  rewrite IH. reflexivity.
Qed.

Lemma array_of_length (rows : list (list (pyval F))) (arr : list (list F)) :
  array_of rows arr -> length arr = length rows.
Proof. intros Harr. symmetry. exact (Forall2_length _ _ _ Harr). Qed.

Lemma array_of_lookup (rows : list (list (pyval F))) (arr : list (list F))
    (i : nat) (r : list (pyval F)) :
  array_of rows arr -> rows !! i = Some r ->
  exists row, arr !! i = Some row /\ Forall2 (fun v x => to_float v = Ok x) r row.
Proof. intros Harr Hr. exact (Forall2_lookup_l _ _ _ _ _ Harr Hr). Qed.

Lemma exceeds_float (n_sigma : F) (a : F) (stats : F * F) :
  f_eq_int stats.2 0 = false ->
  exceeds n_sigma (PFloat a) stats =
  Ok (f_gtb (f_abs (f_div (f_sub a stats.1) stats.2)) n_sigma).
Proof.
  intros Hs. unfold exceeds, abs_zscore, py_fdiv. simpl. rewrite Hs. reflexivity.
Qed.

Lemma anomalous_floats (n_sigma : F) (stats0 stats1 : F * F) (a0 a1 : F) :
  f_eq_int stats0.2 0 = false -> f_eq_int stats1.2 0 = false ->
  anomalous n_sigma stats0 stats1 (PFloat <$> [a0; a1]) =
  Ok (f_gtb (f_abs (f_div (f_sub a0 stats0.1) stats0.2)) n_sigma
      || f_gtb (f_abs (f_div (f_sub a1 stats1.1) stats1.2)) n_sigma).
Proof.
  intros Hs0 Hs1. unfold anomalous.
  change (PFloat <$> [a0; a1]) with [PFloat a0; PFloat (F:=F) a1]. cbv iota beta.
  rewrite (exceeds_float n_sigma a0 stats0 Hs0), (exceeds_float n_sigma a1 stats1 Hs1).
  reflexivity.
Qed.

Lemma regular_two_columns (arr : list (list F)) (row : list F) :
  regular_array 2 arr = true -> row ∈ arr -> exists a0 a1, row = [a0; a1].
Proof.
  unfold regular_array. rewrite forallb_forall. intros Hreg Hrow.
  apply list_elem_of_In, Hreg in Hrow. apply andb_true_iff in Hrow as [Hlen _].
  apply Nat.eqb_eq in Hlen.
  destruct row as [|a0 [|a1 [|a2 row]]]; try discriminate.
  exists a0, a1. reflexivity.
Qed.

(** The vectorized branch against the reference: on an array of two columns
    without NaN, a numpy that keeps the laws gives the mask of the reference
    computation on the values of the array. *)
Lemma np_heuristic_mask_reference (np : NumpyApi F) (n_sigma : F)
    (arr : list (list F)) (mask : list bool) :
  numpy_laws np ->
  regular_array 2 arr = true ->
  heuristic_reference n_sigma (float_rows arr) = Ok mask ->
  np_heuristic_mask np n_sigma (FArray arr) = Ok mask.
Proof.
  intros Hlaws Hreg. unfold heuristic_reference.
  destruct (feature_stats (column 0 (float_rows arr))) as [stats0|e] eqn:H0;
    [|discriminate].
  destruct (feature_stats (column 1 (float_rows arr))) as [stats1|e] eqn:H1;
    [|discriminate].
  simpl. intros Hmask.
  pose proof (proj2 (feature_stats_ok _ _ H0)) as Hs0.
  pose proof (proj2 (feature_stats_ok _ _ H1)) as Hs1.
  unfold feature_stats in H0, H1.
  destruct (population_mean (column 0 (float_rows arr))) as [m0|e] eqn:Hm0;
    [|discriminate].
  destruct (population_std (column 0 (float_rows arr))) as [s0|e] eqn:Hd0;
    [|discriminate].
  destruct (population_mean (column 1 (float_rows arr))) as [m1|e] eqn:Hm1;
    [|discriminate].
  destruct (population_std (column 1 (float_rows arr))) as [s1|e] eqn:Hd1;
    [|discriminate].
  simpl in H0, H1. injection H0 as <-. injection H1 as <-.
  apply (np_nanmean_mean np Hlaws 2 arr 0 m0 Hreg) in Hm0.
  apply (np_nanmean_mean np Hlaws 2 arr 1 m1 Hreg) in Hm1.
  apply (np_nanstd_std np Hlaws 2 arr 0 s0 Hreg) in Hd0.
  apply (np_nanstd_std np Hlaws 2 arr 1 s1 Hreg) in Hd1.
  rewrite np_heuristic_mask_per_feature.
  destruct (np_nanmean np arr) as [|m0' [|m1' means]]; try discriminate.
  destruct (np_nanstd np arr) as [|s0' [|s1' stds]]; try discriminate.
  injection Hm0 as ->. injection Hm1 as ->. injection Hd0 as ->. injection Hd1 as ->.
  f_equal. symmetry.
  apply map_result_ok in Hmask. unfold float_rows in Hmask.
  apply Forall2_fmap_l in Hmask.
  assert (Hrows : Forall (fun row => exists a0 a1, row = [a0; a1]) arr).
  { apply Forall_forall. intros row. apply regular_two_columns, Hreg. }
  clear Hreg. induction Hmask as [|row b arr mask Hb _ IH]; [reflexivity|].
  apply Forall_cons in Hrows as [(a0 & a1 & ->) Hrows].
  rewrite fmap_cons, <- (IH Hrows). f_equal.
  unfold compose in Hb. cbv beta in Hb.
  rewrite (anomalous_floats n_sigma _ _ a0 a1 Hs0 Hs1) in Hb.
  injection Hb as <-. simpl. rewrite orb_false_r. reflexivity.
Qed.

(** C1. On every non-empty batch of rows of two feature values, the heuristic
    computes for each feature by itself the population mean and the
    population standard deviation (the sum of squared deviations divided by
    n) over all rows, puts 1e-8 in the place of a deviation that is exactly
    0, and marks a row exactly when the absolute z-score of its first feature
    or that of its second feature is greater than [n_sigma]. Without numpy
    the loop is the reference computation, and raises exactly when it does.
    With a numpy that keeps the laws, on an array without NaN, the
    vectorized branch gives the mask of the reference computation on the
    values that the array holds, whether it is handed the nested list or the
    array made of it. *)
Theorem heuristic_mask_reference (env : Env F Model) (self : AnomalyDetector F Model)
    (rows : list (list (pyval F))) :
  two_feature_batch rows = true ->
  (numpy env = None ->
   _heuristic_mask env self (FList rows) = heuristic_reference (n_sigma self) rows) /\
  (forall (np : NumpyApi F) (arr : list (list F)) (mask : list bool),
     numpy env = Some np -> numpy_laws np ->
     np_array np rows = Ok arr ->
     regular_array 2 arr = true ->
     heuristic_reference (n_sigma self) (float_rows arr) = Ok mask ->
     array_of rows arr /\
     _heuristic_mask env self (FList rows) = Ok mask /\
     _heuristic_mask env self (FArray arr) = Ok mask).
Proof.
  intros Hbatch. split.
  - intros Hnp. unfold _heuristic_mask. rewrite Hnp.
    apply two_feature_batch_rows in Hbatch as [Hne Hrows].
    unfold py_heuristic_mask, heuristic_reference. simpl.
    destruct rows as [|r0 rows0] eqn:Erows; [congruence|]. rewrite <- Erows in *.
    rewrite (zip_star_two rows Hne Hrows). simpl.
    rewrite !col_stats_reference by (apply column_no_none, Hrows).
    destruct (feature_stats (column 0 rows)) as [stats0|e] eqn:H0; simpl; [|reflexivity].
    destruct (feature_stats (column 1 rows)) as [stats1|e] eqn:H1; simpl; [|reflexivity].
    apply feature_stats_ok in H0 as [Hc0 Hs0], H1 as [Hc1 Hs1].
    apply map_result_ext, Forall_forall. intros r Hr.
    assert (Hrok : row_ok r = true).
    { rewrite forallb_forall in Hrows. apply Hrows, list_elem_of_In, Hr. }
    destruct (row_ok_inv r Hrok) as (x0 & x1 & -> & Hn0 & Hn1).
    apply row_is_anom_reference; try assumption.
    + exact (proj1 (Forall_forall _ _) Hc0 x0 (column_elem 0 rows _ x0 Hr eq_refl)).
    + exact (proj1 (Forall_forall _ _) Hc1 x1 (column_elem 1 rows _ x1 Hr eq_refl)).
  - intros np arr mask Hnp Hlaws Harr Hreg Href.
    split; [exact (np_array_rows np Hlaws rows arr Harr)|].
    pose proof (np_heuristic_mask_reference np (n_sigma self) arr mask Hlaws Hreg Href)
      as Hmask.
    unfold _heuristic_mask. rewrite Hnp. split; [|exact Hmask].
    unfold np_heuristic_mask in *. rewrite Harr. exact Hmask.
Qed.

End HeuristicFacts.

(** ** detect *)

Section DetectFacts.

Context {F : Type} `{!PyFloat F} {Model : Type}.

Import AnomalyDetector.

Lemma masked_nil_r (mask : list bool) : masked (F:=F) mask [] = [].
Proof. unfold masked. destruct mask; reflexivity. Qed.

Lemma masked_cons (b : bool) (mask : list bool) (r : gmap string (pyval F))
    (rows : list (gmap string (pyval F))) :
  masked (b :: mask) (r :: rows) = if b then r :: masked mask rows else masked mask rows.
Proof. unfold masked. simpl. destruct b; reflexivity. Qed.

(** The indexed loop over the mask picks the records at the positions where
    the mask holds. *)
Lemma collect_drop (rows : list (gmap string (pyval F))) (idx : nat) (mask : list bool) :
  collect rows idx mask = masked mask (drop idx rows).
Proof.
  revert idx. induction mask as [|b mask IH]; intros idx; [reflexivity|].
  simpl. rewrite IH.
  destruct (rows !! idx) as [r|] eqn:Hidx.
  - rewrite (drop_S _ _ _ Hidx), masked_cons.
    apply lookup_lt_Some in Hidx. apply Nat.ltb_lt in Hidx. rewrite Hidx.
    destruct b; reflexivity.
  - apply lookup_ge_None in Hidx.
    rewrite !drop_ge by lia. rewrite !masked_nil_r.
    destruct (b && _); reflexivity.
Qed.

Lemma collect_masked (rows : list (gmap string (pyval F))) (mask : list bool) :
  collect rows 0 mask = masked mask rows.
Proof. apply collect_drop. Qed.

Lemma masked_sublist (mask : list bool) (rows : list (gmap string (pyval F))) :
  masked mask rows `sublist_of` rows.
Proof.
  revert mask. induction rows as [|r rows IH]; intros mask.
  - rewrite masked_nil_r. constructor.
  - destruct mask as [|b mask]; [apply sublist_nil_l|].
    rewrite masked_cons. destruct b.
    + apply sublist_skip, IH.
    + apply sublist_cons, IH.
Qed.

Lemma masked_elem (mask : list bool) (rows : list (gmap string (pyval F)))
    (r : gmap string (pyval F)) :
  r ∈ masked mask rows <->
  exists i, mask !! i = Some true /\ rows !! i = Some r.
Proof.
  revert mask. induction rows as [|r' rows IH]; intros mask.
  - rewrite masked_nil_r. split.
    + intros Hr. inversion Hr.
    + intros (i & _ & Hi). destruct i; discriminate.
  - destruct mask as [|b mask].
    + split.
      * intros Hr. inversion Hr.
      * intros (i & Hi & _). destruct i; discriminate.
    + rewrite masked_cons. split.
      * intros Hr. destruct b.
        -- apply elem_of_cons in Hr as [-> | Hr].
           ++ exists 0%nat. split; reflexivity.
           ++ apply IH in Hr as (i & Hm & Hi). exists (S i). split; assumption.
        -- apply IH in Hr as (i & Hm & Hi). exists (S i). split; assumption.
      * intros (i & Hm & Hi). destruct i as [|i]; simpl in Hm, Hi.
        -- injection Hm as ->. injection Hi as ->. left.
        -- assert (Hr : r ∈ masked mask rows) by (apply IH; eauto).
           destruct b; [right|]; exact Hr.
Qed.

Lemma detect_spec (env : Env F Model) (self : AnomalyDetector F Model)
    (df : list (gmap string (pyval F))) :
  (detect env self df).2 =
  fs ← extract_features env df;
  mask ← (compute_mask env self fs).2;
  Ok (masked mask df).
Proof.
  unfold detect.
  destruct (extract_features env df) as [fs|e]; simpl; [|reflexivity].
  destruct (compute_mask env self fs) as [self' [mask|e]]; simpl; [|reflexivity].
  rewrite collect_masked. reflexivity.
Qed.

(** With numpy the feature matrix is the array that [np.array] makes of the
    feature rows, and a numpy that keeps the laws puts the values of record
    [i] into row [i]. *)
Lemma extract_features_array (env : Env F Model) (np : NumpyApi F)
    (df : list (gmap string (pyval F))) (arr : list (list F)) :
  numpy env = Some np -> numpy_laws np ->
  extract_features env df = Ok (FArray arr) ->
  np_array np (feature_row <$> df) = Ok arr /\
  length arr = length df /\
  forall i r, df !! i = Some r ->
    exists row, arr !! i = Some row /\
                Forall2 (fun v x => to_float v = Ok x) (feature_row r) row.
Proof.
  intros Hnp Hlaws. unfold extract_features. rewrite Hnp.
  destruct (np_array np (feature_row <$> df)) as [arr'|e] eqn:Harr; [|discriminate].
  intros [= <-]. apply (np_array_rows np Hlaws) in Harr as Hof.
  split; [reflexivity|]. split.
  - rewrite (array_of_length _ _ Hof), length_fmap. reflexivity.
  - intros i r Hr. apply (array_of_lookup _ _ i (feature_row r) Hof).
    rewrite list_lookup_fmap, Hr. reflexivity.
Qed.

(** C7. [detect] returns the original records of its input, those at the
    positions where the mask of the strategy holds and in the order of the
    input, so that its result is a subsequence of the input; row [i] of the
    feature matrix is made from record [i], in the nested list that is built
    without numpy and in the array that a numpy keeping the laws makes of
    it. *)
Theorem detect_returns_masked_records (env : Env F Model)
    (self : AnomalyDetector F Model) (df : list (gmap string (pyval F))) :
  (numpy env = None ->
   extract_features env df = Ok (FList (feature_row <$> df)) /\
   forall i, (feature_row <$> df) !! i = feature_row <$> df !! i) /\
  (forall (np : NumpyApi F) (arr : list (list F)),
     numpy env = Some np -> numpy_laws np ->
     extract_features env df = Ok (FArray arr) ->
     np_array np (feature_row <$> df) = Ok arr /\
     length arr = length df /\
     forall i r, df !! i = Some r ->
       exists row, arr !! i = Some row /\
                   Forall2 (fun v x => to_float v = Ok x) (feature_row r) row) /\
  (detect env self df).2 =
    (fs ← extract_features env df;
     mask ← (compute_mask env self fs).2;
     Ok (masked mask df)) /\
  (forall (mask : list bool) (r : gmap string (pyval F)),
     r ∈ masked mask df <-> exists i, mask !! i = Some true /\ df !! i = Some r) /\
  (forall out, (detect env self df).2 = Ok out -> out `sublist_of` df).
Proof.
  split; [|split; [|split; [|split]]].
  - intros Hnp. unfold extract_features. rewrite Hnp.
    split; [reflexivity|]. intros i. apply list_lookup_fmap.
  - intros np arr. apply extract_features_array.
  - apply detect_spec.
  - intros mask r. apply masked_elem.
  - intros out. rewrite detect_spec.
    destruct (extract_features env df) as [fs|e]; simpl; [|discriminate].
    destruct (compute_mask env self fs).2 as [mask|e]; simpl; [|discriminate].
    intros [= <-]. apply masked_sublist.
Qed.

(** C10. When the model raises during [fit] or during [predict], [detect]
    takes the mask of the heuristic on the same feature matrix: no exception
    of the model leaves [detect], and the result is the one of a detector
    that has no model. *)
Theorem detect_falls_back_to_heuristic (env : Env F Model) (sk : SklearnApi F Model)
    (self : AnomalyDetector F Model) (m : Model)
    (df : list (gmap string (pyval F))) (fs : features F) (e : exn) :
  sklearn env = Some sk ->
  model self = Some m ->
  extract_features env df = Ok fs ->
  (fit sk m fs).2 = Raise e \/
  ((fit sk m fs).2 = Ok () /\ predict sk (fit sk m fs).1 fs = Raise e) ->
  (compute_mask env self fs).2 = _heuristic_mask env self fs /\
  (detect env self df).2 =
    (mask ← _heuristic_mask env self fs; Ok (masked mask df)) /\
  (detect env self df).2 =
    (detect {| numpy := numpy env; sklearn := None |} self df).2.
Proof.
  intros Hsk Hm Hfs Hfail.
  assert (Hmask : (compute_mask env self fs).2 = _heuristic_mask env self fs).
  { unfold compute_mask. rewrite Hsk, Hm. simpl.
    destruct Hfail as [Hfit | [Hfit Hpred]].
    - rewrite Hfit. reflexivity.
    - rewrite Hfit. simpl. rewrite Hpred. reflexivity. }
  split; [exact Hmask|]. split.
  - rewrite detect_spec, Hfs. simpl. rewrite Hmask. reflexivity.
  - rewrite !detect_spec. unfold extract_features in *. simpl.
    destruct (numpy env) as [np|] eqn:Hnp.
    + rewrite Hfs. simpl. rewrite Hmask.
      unfold compute_mask, _heuristic_mask. simpl. rewrite Hnp. reflexivity.
    + rewrite Hfs. simpl. rewrite Hmask.
      unfold compute_mask, _heuristic_mask. simpl. rewrite Hnp. reflexivity.
Qed.



End DetectFacts.

(** ** The model of numpy keeps the laws *)

Section NumpyModelFacts.

Import AnomalyDetector.

Lemma column_float_rows {F : Type} (j : nat) (arr : list (list F)) :
  column j (float_rows arr) = PFloat <$> omap (fun r : list F => r !! j) arr.
Proof.
  unfold column, float_rows. induction arr as [|r arr IH]; [reflexivity|].
  rewrite fmap_cons. cbn [omap list_omap]. rewrite list_lookup_fmap, IH.
  destruct (r !! j) as [x|]; reflexivity.
Qed.

Lemma regular_array_seen (w : nat) (arr : list (list float)) (j : nat) :
  regular_array w arr = true ->
  NumpyModel.seen j arr = omap (fun r : list float => r !! j) arr.
Proof.
  intros Hreg. unfold NumpyModel.seen. apply List.forallb_filter_id.
  apply forallb_forall. intros x Hx.
  apply list_elem_of_In, list_elem_of_omap in Hx as (r & Hr & Hx).
  unfold regular_array in Hreg. rewrite forallb_forall in Hreg.
  apply list_elem_of_In, Hreg in Hr. apply andb_true_iff in Hr as [_ Hr].
  rewrite forallb_forall in Hr. apply Hr, list_elem_of_In.
  apply (list_elem_of_lookup_2 _ _ _ Hx).
Qed.

Lemma regular_array_width (w : nat) (arr : list (list float)) (j : nat) :
  regular_array w arr = true ->
  omap (fun r : list float => r !! j) arr <> [] ->
  (j < NumpyModel.width arr)%nat.
Proof.
  intros Hreg Hne. unfold regular_array in Hreg. rewrite forallb_forall in Hreg.
  assert (Hlen : forall r, r ∈ arr -> length r = w).
  { intros r Hr. apply list_elem_of_In, Hreg in Hr.
    apply andb_true_iff in Hr as [Hw _]. apply Nat.eqb_eq, Hw. }
  destruct (omap (fun r : list float => r !! j) arr) as [|y ys] eqn:Hcol;
    [contradiction|].
  assert (Hy : y ∈ omap (fun r : list float => r !! j) arr) by (rewrite Hcol; left).
  apply list_elem_of_omap in Hy as (r' & Hr' & Hy).
  apply lookup_lt_Some in Hy. rewrite (Hlen r' Hr') in Hy.
  destruct arr as [|r arr]; [inversion Hr'|].
  simpl. rewrite (Hlen r); [exact Hy | left].
Qed.

Lemma py_sum_from_floats (a : float) (xs : list float) :
  py_sum_from (PFloat a) (PFloat <$> xs) = Ok (PFloat (fold_left PrimFloat.add xs a)).
Proof.
  revert a. induction xs as [|x xs IH]; intros a; [reflexivity|].
  rewrite fmap_cons. simpl. apply IH.
Qed.

Lemma py_sum_floats (xs : list float) :
  xs <> [] ->
  py_sum (PFloat <$> xs) = Ok (PFloat (NumpyModel.add_all xs)).
Proof.
  destruct xs as [|x xs]; [congruence|]. intros _.
  unfold py_sum, NumpyModel.add_all. rewrite fmap_cons. simpl.
  apply py_sum_from_floats.
Qed.

Lemma population_mean_floats (xs : list float) (m : float) :
  population_mean (PFloat <$> xs) = Ok m -> xs <> [] /\ m = NumpyModel.mean xs.
Proof.
  unfold population_mean. destruct xs as [|x xs]; [discriminate|].
  rewrite py_sum_floats by discriminate. simpl. rewrite length_fmap.
  unfold IEEE.of_int, IEEE.checked, NumpyModel.mean.
  destruct (is_infinity _); simpl; [discriminate|].
  unfold py_fdiv. destruct (f_eq_int _ 0); [discriminate|].
  intros [= <-]. split; [discriminate | reflexivity].
Qed.

Lemma pow2_ok (d t : float) : IEEE.pow2 d = Ok t -> t = PrimFloat.mul d d.
Proof.
  unfold IEEE.pow2. destruct (is_finite d && is_infinity (PrimFloat.mul d d));
    congruence.
Qed.

Lemma squared_deviations_floats (m : float) (xs : list float) (sq : list (pyval float)) :
  map_result (squared_deviation m) (PFloat <$> xs) = Ok sq ->
  sq = PFloat <$> ((fun x => let d := PrimFloat.sub x m in PrimFloat.mul d d) <$> xs).
Proof.
  revert sq. induction xs as [|x xs IH]; intros sq.
  - intros [= <-]. reflexivity.
  - rewrite !fmap_cons.
    change (map_result (squared_deviation m) (PFloat x :: (PFloat <$> xs)))
      with (y ← (t ← IEEE.pow2 (PrimFloat.sub x m); Ok (PFloat t));
            ys ← map_result (squared_deviation m) (PFloat <$> xs);
            Ok (y :: ys)).
    destruct (IEEE.pow2 (PrimFloat.sub x m)) as [t|e] eqn:Ht; [|discriminate].
    apply pow2_ok in Ht as ->.
    destruct (map_result _ (PFloat <$> xs)) as [sq'|e]; [|discriminate].
    intros [= <-]. rewrite (IH sq' eq_refl). reflexivity.
Qed.

Lemma pow_half_ok (v s : float) : IEEE.pow_half v = Ok s -> s = NumpyModel.root v.
Proof.
  unfold IEEE.pow_half, NumpyModel.root.
  destruct (PrimFloat.ltb v PrimFloat.zero); [discriminate|].
  destruct (is_zero v); congruence.
Qed.

Lemma population_std_floats (xs : list float) (s : float) :
  population_std (PFloat <$> xs) = Ok s ->
  s = NumpyModel.root (NumpyModel.variance xs).
Proof.
  unfold population_std.
  destruct (population_mean (PFloat <$> xs)) as [m|e] eqn:Hm; [|discriminate].
  apply population_mean_floats in Hm as [Hne ->].
  destruct (map_result (squared_deviation (NumpyModel.mean xs)) (PFloat <$> xs))
    as [sq|e] eqn:Hsq.
  2:{ simpl. rewrite Hsq. discriminate. }
  simpl. rewrite Hsq. simpl.
  apply squared_deviations_floats in Hsq as ->.
  set (ds := (fun x => _) <$> xs).
  assert (Hlen : length (PFloat (F:=float) <$> xs) = length (PFloat (F:=float) <$> ds))
    by (unfold ds; rewrite !length_fmap; reflexivity).
  rewrite Hlen.
  pose proof (population_mean_floats ds) as Hvar.
  unfold population_mean in Hvar.
  destruct (py_sum (PFloat <$> ds)) as [ssq|e]; [|discriminate].
  simpl in *.
  destruct (py_truediv ssq (Z.of_nat (length (PFloat (F:=float) <$> ds))))
    as [var|e]; [|discriminate].
  destruct (Hvar var eq_refl) as [_ ->]. simpl.
  intros Hs. apply pow_half_ok in Hs. exact Hs.
Qed.

Lemma numpy_model_laws : numpy_laws NumpyModel.api.
Proof.
  split.
  - intros rows arr Harr. simpl in Harr. unfold NumpyModel.array in Harr.
    apply map_result_ok in Harr. unfold array_of.
    eapply Forall2_impl; [exact Harr|].
    intros r row Hrow. apply map_result_ok in Hrow. exact Hrow.
  - intros w arr j m Hreg Hm. rewrite column_float_rows in Hm.
    apply population_mean_floats in Hm as [Hne ->]. simpl.
    unfold NumpyModel.nanmean. rewrite list_lookup_fmap.
    rewrite (lookup_seq_lt _ _ _ (regular_array_width w arr j Hreg Hne)). simpl.
    rewrite (regular_array_seen w arr j Hreg). reflexivity.
  - intros w arr j s Hreg Hs. rewrite column_float_rows in Hs.
    assert (Hne : omap (fun r : list float => r !! j) arr <> []).
    { intros Hnil. rewrite Hnil in Hs. discriminate. }
    apply population_std_floats in Hs as ->. simpl.
    unfold NumpyModel.nanstd. rewrite list_lookup_fmap.
    rewrite (lookup_seq_lt _ _ _ (regular_array_width w arr j Hreg Hne)). simpl.
    rewrite (regular_array_seen w arr j Hreg). reflexivity.
Qed.

End NumpyModelFacts.

(** ** Concrete runs *)

Section ConcreteRuns.

Import AnomalyDetector Examples NumpyExamples.

(** C2. On the nine records of actor A ([failed_logins] 1, [requests] 10) and
    the record of actor J ([failed_logins] 100, [requests] 10), a detector
    built with [n_sigma = 3.0] returns the record of J and no other. The
    z-score of J is 3.0000000000000004 in binary64. *)
Theorem ten_records_flag_only_J :
  (d ← __init__ plain_env None (Some 3%float); (detect plain_env d ten_records).2) =
  Ok [record_of "J" 100 10].
Proof. vm_compute. reflexivity. Qed.

Lemma heuristic_mask_reference_witness :
  numpy plain_env = None /\
  two_feature_batch (feature_row <$> ten_records) = true /\
  _heuristic_mask plain_env (detector 3) (FList (feature_row <$> ten_records)) =
  heuristic_reference 3%float (feature_row <$> ten_records) /\
  np_array NumpyModel.api (feature_row <$> ten_records) = Ok ten_rows /\
  regular_array 2 ten_rows = true /\
  heuristic_reference 3%float (float_rows ten_rows) = Ok (replicate 9 false ++ [true]) /\
  _heuristic_mask numpy_env (detector 3) (FArray ten_rows) =
  Ok (replicate 9 false ++ [true]).
Proof.
  assert (Hbatch : two_feature_batch (feature_row <$> ten_records) = true)
    by reflexivity.
  assert (Harr : np_array NumpyModel.api (feature_row <$> ten_records) = Ok ten_rows)
    by (vm_compute; reflexivity).
  assert (Hreg : regular_array 2 ten_rows = true) by (vm_compute; reflexivity).
  assert (Href : heuristic_reference 3%float (float_rows ten_rows) =
                 Ok (replicate 9 false ++ [true])) by (vm_compute; reflexivity).
  split; [reflexivity|]. split; [exact Hbatch|]. split.
  - exact (proj1 (heuristic_mask_reference plain_env (detector 3) _ Hbatch) eq_refl).
  - split; [exact Harr|]. split; [exact Hreg|]. split; [exact Href|].
    exact (proj2 (proj2
      (proj2 (heuristic_mask_reference numpy_env (detector 3) _ Hbatch)
         NumpyModel.api ten_rows _ eq_refl numpy_model_laws Harr Hreg Href))).
Defined.

Lemma aggregate_per_actor_witness :
  plain_actor_ids three_events = true /\
  Aggregator.aggregate three_events = aggregated_records three_events.
Proof.
  split; [reflexivity|].
  apply (proj1 aggregate_per_actor three_events). reflexivity.
Defined.

Lemma malformed_count_is_zero_witness :
  malformed_count (unknown_count_record !! "failed_logins") = true /\
  RuleEngine.coerce (get unknown_count_record "failed_logins") = Ok 0 /\
  RuleEngine.check_rules [record_of "a" 9 9; unknown_count_record] =
  RuleEngine.check_rules [record_of "a" 9 9].
Proof.
  split; [reflexivity|].
  destruct (malformed_count_is_zero unknown_count_record eq_refl) as (Hzero & Hskip & _).
  split; [exact Hzero|]. exact (Hskip [record_of "a" 9 9] []).
Defined.

Lemma detect_returns_masked_records_witness :
  numpy plain_env = None /\
  (detect plain_env (detector 3) ten_records).2 = Ok [record_of "J" 100 10] /\
  [record_of "J" 100 10] `sublist_of` ten_records /\
  extract_features numpy_env ten_records = Ok (FArray ten_rows) /\
  length ten_rows = length ten_records /\
  (detect numpy_env (detector 3) ten_records).2 = Ok [record_of "J" 100 10].
Proof.
  split; [reflexivity|].
  assert (Hrun : (detect plain_env (detector 3) ten_records).2 = Ok [record_of "J" 100 10])
    by (vm_compute; reflexivity).
  assert (Hfs : extract_features numpy_env ten_records = Ok (FArray ten_rows))
    by (vm_compute; reflexivity).
  split; [exact Hrun|]. split.
  - exact (proj2 (proj2 (proj2 (proj2
      (detect_returns_masked_records plain_env (detector 3) ten_records)))) _ Hrun).
  - split; [exact Hfs|]. split.
    + exact (proj1 (proj2 (proj1 (proj2
        (detect_returns_masked_records numpy_env (detector 3) ten_records))
        NumpyModel.api ten_rows eq_refl numpy_model_laws Hfs))).
    + vm_compute. reflexivity.
Defined.

Lemma detect_falls_back_to_heuristic_witness :
  sklearn sklearn_env = Some raising_sklearn /\
  model fitted_detector = Some () /\
  extract_features sklearn_env ten_records = Ok (FList (feature_row <$> ten_records)) /\
  (fit raising_sklearn () (FList (feature_row <$> ten_records))).2 = Raise ValueError /\
  (detect sklearn_env fitted_detector ten_records).2 =
  (detect {| numpy := None; sklearn := None |} fitted_detector ten_records).2.
Proof.
  split; [reflexivity|]. split; [reflexivity|]. split; [reflexivity|].
  split; [reflexivity|].
  apply (detect_falls_back_to_heuristic sklearn_env raising_sklearn fitted_detector ()
           ten_records (FList (feature_row <$> ten_records)) ValueError);
    [reflexivity | reflexivity | reflexivity | left; reflexivity].
Defined.



(** The statistics behind the run on the ten records: in exact arithmetic
    the deviation of [failed_logins] is 29.7 and the z-score of J exactly 3;
    in binary64 the deviation is rounded below 29.7 and the z-score above 3. *)
Lemma ten_records_statistics :
  map_result col_stats (zip_star (feature_row <$> ten_records)) =
    Ok [(10.9%float, 29.699999999999996%float); (10%float, 1e-8%float)] /\
  PrimFloat.abs (PrimFloat.div (PrimFloat.sub 100 10.9) 29.699999999999996) =
    3.0000000000000004%float /\
  PrimFloat.ltb 3 3.0000000000000004 = true.
Proof. repeat split; vm_compute; reflexivity. Qed.

(** C6. [check_rules] does raise on a field value: on a stored float
    infinity [int] raises OverflowError, which the handler of the coercion,
    written for TypeError and ValueError, does not catch, so that the whole
    batch is lost with the alert of the record before it. The NaN beside it
    shows what the handler is for: [int] raises ValueError there and the
    count is 0. *)
Theorem check_rules_infinite_count :
  RuleEngine.coerce (PFloat infinity) = Raise OverflowError /\
  RuleEngine.check_rules [record_of "a" 9 9; infinite_count_record] =
    Raise OverflowError /\
  RuleEngine.check_rules [record_of "a" 9 9] = Ok [RuleEngine.alert (PStr "a") 9] /\
  RuleEngine.coerce (PFloat nan) = Ok 0.
Proof. repeat split; vm_compute; reflexivity. Qed.



End ConcreteRuns.

(** * The callers and the helpers: properties *)

(** ** Masking of the API key *)

Section MaskKeyFacts.

Import Settings.

Lemma mask_key_long (key : list ascii) :
  (8 < length key)%nat ->
  _mask_key (Some key) =
  take 4 key ++ replicate (length key - 8) "*"%char ++ drop (length key - 4) key.
Proof.
  intros Hlen. unfold _mask_key.
  destruct key as [|c key]; [simpl in Hlen; lia|].
  destruct (Nat.leb_spec (length (c :: key)) 8) as [Hle|_]; [lia | reflexivity].
Qed.

Lemma mask_key_short (key : list ascii) :
  (length key <= 8)%nat ->
  _mask_key (Some key) = replicate (length key) "*"%char.
Proof.
  intros Hlen. unfold _mask_key.
  destruct key as [|c key]; [reflexivity|].
  destruct (Nat.leb_spec (length (c :: key)) 8) as [_|Hgt]; [reflexivity | lia].
Qed.

(** X1. The mask is as long as the key; no key, or the empty key, gives the
    empty string. *)
Theorem mask_key_keeps_length (key : option (list ascii)) :
  length (_mask_key key) = length (default [] key).
Proof.
  destruct key as [key|]; [|reflexivity].
  change (default [] (Some key)) with key.
  destruct (decide (length key <= 8)%nat) as [Hle|Hgt].
  - rewrite mask_key_short by exact Hle. apply length_replicate.
  - rewrite mask_key_long by lia.
    rewrite !length_app, length_take, length_replicate, length_drop. lia.
Qed.

(** X2. A key of at most eight characters is masked entirely. *)
Theorem mask_key_hides_short_key (key : list ascii) :
  (length key <=? 8)%nat = true ->
  Forall (fun c => c = "*"%char) (_mask_key (Some key)).
Proof.
  intros Hlen. apply Nat.leb_le in Hlen.
  rewrite mask_key_short by exact Hlen.
  apply Forall_replicate. reflexivity.
Qed.

(** X3. A longer key shows its first four and its last four characters and
    nothing else: every position between them holds a star. *)
Theorem mask_key_shows_four_and_four (key : list ascii) (i : nat) :
  (8 <? length key)%nat = true ->
  ((i < 4 \/ length key - 4 <= i)%nat -> _mask_key (Some key) !! i = key !! i) /\
  ((4 <= i < length key - 4)%nat -> _mask_key (Some key) !! i = Some "*"%char).
Proof.
  intros Hlen. apply Nat.ltb_lt in Hlen.
  rewrite mask_key_long by exact Hlen.
  assert (Htake : length (take 4 key) = 4%nat) by (rewrite length_take; lia).
  split.
  - intros [Hi | Hi].
    + rewrite lookup_app_l by lia. apply lookup_take_lt. exact Hi.
    + rewrite lookup_app_r by lia. rewrite Htake.
      rewrite lookup_app_r by (rewrite length_replicate; lia).
      rewrite length_replicate, lookup_drop. f_equal. lia.
  - intros Hi. rewrite lookup_app_r by lia. rewrite Htake.
    rewrite lookup_app_l by (rewrite length_replicate; lia).
    apply lookup_replicate_2. lia.
Qed.

(** X4. Masking a mask changes nothing. *)
Theorem mask_key_idempotent (key : option (list ascii)) :
  _mask_key (Some (_mask_key key)) = _mask_key key.
Proof.
  destruct key as [key|]; [|reflexivity].
  destruct (decide (length key <= 8)%nat) as [Hle|Hgt].
  - rewrite (mask_key_short key Hle).
    rewrite mask_key_short by (rewrite length_replicate; exact Hle).
    rewrite length_replicate. reflexivity.
  - assert (Hlen : (8 < length key)%nat) by lia.
    rewrite (mask_key_long key Hlen).
    set (m := take 4 key ++ replicate (length key - 8) "*"%char
                ++ drop (length key - 4) key).
    assert (Htake : length (take 4 key) = 4%nat) by (rewrite length_take; lia).
    assert (Hm : length m = length key).
    { unfold m. rewrite !length_app, Htake, length_replicate, length_drop. lia. }
    rewrite mask_key_long by lia. rewrite Hm. unfold m at 3. f_equal; [|f_equal].
    + unfold m. rewrite take_app_le by lia. rewrite take_ge by lia. reflexivity.
    + unfold m. rewrite drop_app_ge by lia. rewrite Htake.
      rewrite drop_app_ge by (rewrite length_replicate; lia).
      rewrite length_replicate.
      replace (length key - 4 - 4 - (length key - 8))%nat with 0%nat by lia.
      reflexivity.
Qed.

End MaskKeyFacts.

(** ** The aggregation loop, further *)

Section AggregationExtras.

Context {F : Type} `{!PyFloat F}.

Import Aggregator.

Lemma total_cons {A : Type} (f : A -> Z) (x : A) (l : list A) :
  total f (x :: l) = f x + total f l.
Proof. reflexivity. Qed.

Lemma total_app {A : Type} (f : A -> Z) (l k : list A) :
  total f (l ++ k) = total f l + total f k.
Proof.
  induction l as [|x l IH]; [reflexivity|].
  rewrite <- app_comm_cons, !total_cons, IH. lia.
Qed.

Lemma total_alter {A : Type} (f : A -> Z) (g : A -> A) (l : list A) (i : nat) (x : A) :
  l !! i = Some x -> total f (alter g i l) = total f l - f x + f (g x).
Proof.
  revert i. induction l as [|y l IH]; intros [|i] Hi; try discriminate.
  - injection Hi as ->.
    replace (alter g 0%nat (x :: l)) with (g x :: l) by reflexivity.
    rewrite !total_cons. lia.
  - replace (alter g (S i) (y :: l)) with (y :: alter g i l) by reflexivity.
    rewrite !total_cons, (IH i Hi). lia.
Qed.

Lemma resolve_actor_truthy (r : gmap string (pyval F)) :
  truthy (resolve_actor r) = true.
Proof.
  unfold resolve_actor, py_or.
  destruct (truthy (if truthy (get r "source_ip") then _ else _)) eqn:Hor;
    [exact Hor | reflexivity].
Qed.

(** What one turn of the loop does to the sum of a counter. *)
Lemma step_total (f : entry F -> Z) (agg : list (pyval F * entry F))
    (r : gmap string (pyval F)) (d : Z) :
  (forall e, f (bump (is_failed_login r) e) = f e + d) ->
  f {| ip := resolve_actor r; failed_logins := 0; requests := 0 |} = 0 ->
  total (fun ke => f ke.2) (step agg r) = total (fun ke => f ke.2) agg + d.
Proof.
  intros Hbump Hfresh. rewrite step_spec. simpl.
  destruct (find_key (resolve_actor r) agg) as [i|] eqn:Hfind.
  - apply find_key_lookup in Hfind as (k & e & Hi & _).
    rewrite (total_alter _ _ _ _ _ Hi). simpl. rewrite Hbump. lia.
  - rewrite total_app, total_cons. simpl. rewrite Hbump, Hfresh.
    change (total _ []) with 0. lia.
Qed.

Lemma fold_step_total (f : entry F -> Z) (p : gmap string (pyval F) -> bool)
    (logs : list (gmap string (pyval F))) (agg : list (pyval F * entry F)) :
  (forall r e, f (bump (is_failed_login r) e) = f e + (if p r then 1 else 0)) ->
  (forall k, f {| ip := k; failed_logins := 0; requests := 0 |} = 0) ->
  total (fun ke => f ke.2) (fold_left step logs agg) =
  total (fun ke => f ke.2) agg + count_events p logs.
Proof.
  intros Hbump Hfresh. revert agg.
  induction logs as [|r logs IH]; intros agg.
  - unfold count_events. simpl. lia.
  - simpl. rewrite IH, (step_total f agg r (if p r then 1 else 0)).
    + unfold count_events. simpl. destruct (p r); simpl; lia.
    + intros e. apply Hbump.
    + apply Hfresh.
Qed.

Lemma total_fmap {A B : Type} (f : B -> Z) (g : A -> B) (l : list A) :
  total f (g <$> l) = total (fun x => f (g x)) l.
Proof.
  induction l as [|x l IH]; [reflexivity|].
  rewrite fmap_cons, !total_cons, IH. reflexivity.
Qed.

(** X5. No event is lost and none is counted twice: over the records of the
    aggregation the [requests] add up to the number of events and the
    [failed_logins] to the number of events whose kind is "failed_login". *)
Theorem aggregate_counts_every_event (logs : list (gmap string (pyval F))) :
  total (int_field "requests") (aggregate logs) = Z.of_nat (length logs) /\
  total (int_field "failed_logins") (aggregate logs) = count_events is_failed_login logs.
Proof.
  unfold aggregate, aggregate_entries. rewrite !total_fmap. split.
  - change (fun x : pyval F * entry F => int_field "requests" (entry_dict x.2))
      with (fun ke : pyval F * entry F => requests ke.2).
    rewrite (fold_step_total requests (fun _ => true)).
    + change (total _ []) with 0. unfold count_events.
      rewrite List.forallb_filter_id; [lia|].
      induction logs as [|r logs IH]; [reflexivity | exact IH].
    + intros r e. reflexivity.
    + intros k. reflexivity.
  - change (fun x : pyval F * entry F => int_field "failed_logins" (entry_dict x.2))
      with (fun ke : pyval F * entry F => failed_logins ke.2).
    rewrite (fold_step_total failed_logins is_failed_login).
    + change (total _ []) with 0. lia.
    + intros r e. reflexivity.
    + intros k. reflexivity.
Qed.

Lemma step_well_formed (agg : list (pyval F * entry F)) (r : gmap string (pyval F)) :
  Forall (fun ke => truthy (ip ke.2) = true /\ 1 <= requests ke.2) agg ->
  Forall (fun ke => truthy (ip ke.2) = true /\ 1 <= requests ke.2) (step agg r) /\
  (length (step agg r) <= S (length agg))%nat.
Proof.
  intros Hagg. rewrite step_spec. simpl.
  destruct (find_key (resolve_actor r) agg) as [i|].
  - split; [|rewrite length_alter; lia].
    apply Forall_alter; [exact Hagg|].
    intros [k e] _ [Hip Hreq]. simpl in *. split; [exact Hip | lia].
  - split; [|rewrite length_app; simpl; lia].
    apply Forall_app. split; [exact Hagg|].
    constructor; [|constructor]. simpl.
    split; [apply resolve_actor_truthy | lia].
Qed.

Lemma fold_step_well_formed (logs : list (gmap string (pyval F)))
    (agg : list (pyval F * entry F)) :
  Forall (fun ke => truthy (ip ke.2) = true /\ 1 <= requests ke.2) agg ->
  Forall (fun ke => truthy (ip ke.2) = true /\ 1 <= requests ke.2)
         (fold_left step logs agg) /\
  (length (fold_left step logs agg) <= length agg + length logs)%nat.
Proof.
  revert agg. induction logs as [|r logs IH]; intros agg Hagg; simpl.
  - split; [exact Hagg | lia].
  - destruct (step_well_formed agg r Hagg) as [Hstep Hlen].
    destruct (IH (step agg r) Hstep) as [Hall Hlen'].
    split; [exact Hall | lia].
Qed.

(** X6. Every record of the aggregation stands for at least one event and names
    its actor: [requests] is at least 1 and [ip] is never [None], empty or
    zero; and there are at most as many records as events. *)
Theorem aggregate_records_are_populated (logs : list (gmap string (pyval F))) :
  Forall (fun rec : gmap string (pyval F) =>
            truthy (get rec "ip") = true /\ 1 <= int_field "requests" rec)
         (aggregate logs) /\
  (length (aggregate logs) <= length logs)%nat.
Proof.
  unfold aggregate, aggregate_entries.
  destruct (fold_step_well_formed logs [] (Forall_nil_2 _)) as [Hall Hlen].
  split.
  - rewrite !Forall_fmap. eapply Forall_impl; [exact Hall|].
    intros [k e] He. exact He.
  - rewrite !length_fmap. simpl in Hlen. exact Hlen.
Qed.

Lemma brute_force_alerts_fmap {A : Type} (f : A -> gmap string (pyval F)) (g : A -> Z)
    (l : list A) :
  brute_force_alerts (f <$> l) (g <$> l) =
  omap (fun x => if 5 <? g x
                 then Some {[ "type" := PStr "Brute Force";
                              "ip" := get (f x) "ip";
                              "failed_logins" := PInt (g x) ]}
                 else None) l.
Proof.
  unfold brute_force_alerts. induction l as [|x l IH]; [reflexivity|].
  rewrite !fmap_cons. simpl. destruct (5 <? g x); [f_equal|]; exact IH.
Qed.

(** X7. From the events to the alerts: when no actor identifier is a float, the
    rule engine run on the aggregation reports, in first-seen order, exactly
    the actors that more than five of the events show failing to log in,
    each with that number; and it does not raise. *)
Theorem brute_force_alerts_of_events (logs : list (gmap string (pyval F))) :
  plain_actor_ids logs = true ->
  RuleEngine.check_rules (aggregate logs) = Ok (omap (actor_alert logs) (actors logs)).
Proof.
  intros Hids. apply plain_actor_ids_spec in Hids.
  unfold aggregate, aggregate_entries.
  rewrite (fold_step_entries logs Hids), <- !list_fmap_compose.
  unfold RuleEngine.check_rules. rewrite check_rules_loop_spec.
  rewrite (map_result_fmap_ok _ _
             (fun k => failed_logins (actor_entry logs k))); [|intros k; reflexivity].
  simpl. rewrite brute_force_alerts_fmap. reflexivity.
Qed.

End AggregationExtras.

(** ** The rule engine, further *)

Section RuleEngineExtras.

Context {F : Type} `{!PyFloat F}.

Import RuleEngine.

Lemma check_rules_loop_app (a b alerts : list (gmap string (pyval F))) :
  check_rules_loop (a ++ b) alerts =
  alerts' ← check_rules_loop a alerts; check_rules_loop b alerts'.
Proof.
  revert alerts. induction a as [|row a IH]; intros alerts; [reflexivity|].
  simpl. destruct (coerce (get row "failed_logins")) as [z|e]; simpl; [|reflexivity].
  apply IH.
Qed.

Lemma check_rules_loop_acc (b alerts : list (gmap string (pyval F))) :
  check_rules_loop b alerts = found ← check_rules_loop b []; Ok (alerts ++ found).
Proof.
  rewrite !check_rules_loop_spec.
  destruct (map_result _ b) as [counts|e]; reflexivity.
Qed.

(** X8. Two batches can be checked one after the other: the alerts of a
    concatenation are the alerts of the first batch followed by those of the
    second, and the exception is the first that either raises. *)
Theorem check_rules_app (a b : list (gmap string (pyval F))) :
  check_rules (a ++ b) =
  first ← check_rules a; second ← check_rules b; Ok (first ++ second).
Proof.
  unfold check_rules. rewrite check_rules_loop_app.
  destruct (check_rules_loop a []) as [first|e]; simpl; [|reflexivity].
  apply check_rules_loop_acc.
Qed.

Lemma brute_force_alerts_sound (rows : list (gmap string (pyval F))) (counts : list Z) :
  Forall (fun a : gmap string (pyval F) =>
            a !! "type" = Some (PStr "Brute Force") /\
            (exists z, a !! "failed_logins" = Some (PInt z) /\ 5 < z) /\
            (exists row, row ∈ rows /\ a !! "ip" = Some (get row "ip")))
         (brute_force_alerts rows counts) /\
  (length (brute_force_alerts rows counts) <= length rows)%nat.
Proof.
  unfold brute_force_alerts. revert counts.
  induction rows as [|row rows IH]; intros [|z counts]; simpl;
    try (split; [constructor | lia]).
  destruct (IH counts) as [Hall Hlen].
  assert (Hrest : Forall (fun a : gmap string (pyval F) =>
            a !! "type" = Some (PStr "Brute Force") /\
            (exists z, a !! "failed_logins" = Some (PInt z) /\ 5 < z) /\
            (exists row', row' ∈ row :: rows /\ a !! "ip" = Some (get row' "ip")))
         (omap (fun rc : gmap string (pyval F) * Z =>
                  if 5 <? rc.2
                  then Some {[ "type" := PStr "Brute Force";
                               "ip" := get rc.1 "ip";
                               "failed_logins" := PInt rc.2 ]}
                  else None) (zip rows counts))).
  { eapply Forall_impl; [exact Hall|].
    intros a (Htype & Hcount & row' & Hin & Hip).
    split; [exact Htype|]. split; [exact Hcount|].
    exists row'. split; [right; exact Hin | exact Hip]. }
  destruct (5 <? z) eqn:Hz; simpl.
  - split; [|simpl; apply le_n_S, Hlen]. constructor; [|exact Hrest].
    split; [reflexivity|]. split.
    + exists z. split; [reflexivity | apply Z.ltb_lt, Hz].
    + exists row. split; [left | reflexivity].
  - split; [exact Hrest | simpl; apply Nat.le_le_succ_r, Hlen].
Qed.

(** X9. What an alert says: every alert that [check_rules] returns has the type
    "Brute Force", an int [failed_logins] above 5 and the [ip] of one of the
    rows; and there are at most as many alerts as rows. *)
Theorem check_rules_alerts_are_sound (df alerts : list (gmap string (pyval F))) :
  check_rules df = Ok alerts ->
  Forall (fun a : gmap string (pyval F) =>
            a !! "type" = Some (PStr "Brute Force") /\
            (exists z, a !! "failed_logins" = Some (PInt z) /\ 5 < z) /\
            (exists row, row ∈ df /\ a !! "ip" = Some (get row "ip")))
         alerts /\
  (length alerts <= length df)%nat.
Proof.
  unfold check_rules. rewrite check_rules_loop_spec.
  destruct (map_result _ df) as [counts|e]; simpl; [|discriminate].
  intros [= <-]. apply brute_force_alerts_sound.
Qed.

End RuleEngineExtras.

(** ** The detector, further *)

Section DetectorExtras.

Context {F : Type} `{!PyFloat F} {Model : Type}.

Import AnomalyDetector.

Lemma map_result_length {A B : Type} (f : A -> result B) (l : list A) (l' : list B) :
  map_result f l = Ok l' -> length l' = length l.
Proof.
  intros Hl. apply map_result_ok in Hl. symmetry. exact (Forall2_length _ _ _ Hl).
Qed.

(** X10. The heuristic answers with one flag per row, so that no index of the
    mask lies outside the rows: without numpy on every feature matrix, with
    numpy on every array. *)
Theorem heuristic_mask_has_one_flag_per_row (env : Env F Model)
    (self : AnomalyDetector F Model) (fs : features F) (mask : list bool) :
  _heuristic_mask env self fs = Ok mask ->
  numpy env = None \/ (exists arr, fs = FArray arr) ->
  length mask = length (rows_of fs).
Proof.
  unfold _heuristic_mask. intros Hmask Hcase.
  destruct (numpy env) as [np|] eqn:Hnp.
  - destruct Hcase as [Hnone | [arr ->]]; [discriminate|].
    unfold np_heuristic_mask in Hmask. simpl in Hmask. injection Hmask as <-.
    unfold rows_of. rewrite !length_fmap. reflexivity.
  - unfold py_heuristic_mask in Hmask.
    destruct (rows_of fs) as [|r rows] eqn:Hrows.
    + injection Hmask as <-. reflexivity.
    + destruct (map_result col_stats _) as [stats|e]; simpl in Hmask; [|discriminate].
      apply (map_result_length
               (row_is_anom (stats.*1) (stats.*2) (n_sigma self) 0) (r :: rows)).
      exact Hmask.
Qed.

Lemma masked_take (mask : list bool) (rows : list (gmap string (pyval F))) :
  masked mask rows = masked (take (length rows) mask) rows.
Proof.
  revert mask. induction rows as [|r rows IH]; intros mask.
  - rewrite !masked_nil_r. reflexivity.
  - destruct mask as [|b mask]; [reflexivity|].
    simpl. rewrite !masked_cons, <- IH. reflexivity.
Qed.

(** X11. The guard [idx < len(rows)] of the last loop of [detect]: the entries of
    a mask beyond the last row are passed over, they neither raise nor add a
    record; and a row beyond the end of a short mask is not returned. *)
Theorem collect_ignores_mask_beyond_rows (rows : list (gmap string (pyval F)))
    (mask : list bool) :
  collect rows 0 mask = collect rows 0 (take (length rows) mask) /\
  collect rows 0 mask = collect (take (length mask) rows) 0 mask.
Proof.
  rewrite !collect_masked. split; [apply masked_take|].
  revert rows. induction mask as [|b mask IH]; intros rows.
  - destruct rows; reflexivity.
  - destruct rows as [|r rows]; [reflexivity|].
    simpl. rewrite !masked_cons, <- IH. reflexivity.
Qed.

Lemma zip_star_feature_rows (df : list (gmap string (pyval F))) :
  df <> [] ->
  zip_star (feature_row <$> df) =
  [count_feature <$> df; (fun r => get_default r "requests" (PInt 0)) <$> df].
Proof.
  induction df as [|r df IH]; [congruence|]. intros _.
  destruct df as [|r' df]; [reflexivity|].
  rewrite fmap_cons.
  change (zip_star (feature_row r :: (feature_row <$> (r' :: df))))
    with (zip_with cons (feature_row r) (zip_star (feature_row <$> (r' :: df)))).
  rewrite IH by discriminate. reflexivity.
Qed.

Lemma py_sum_from_string (acc : Z) (l : list (pyval F)) :
  forallb (fun v => negb (is_float v)) l = true ->
  existsb is_str l = true ->
  py_sum_from (PInt acc) (none_to_zero <$> l) = Raise TypeError.
Proof.
  revert acc. induction l as [|v l IH]; intros acc Hplain Hstr; [discriminate|].
  simpl in Hplain, Hstr. apply andb_true_iff in Hplain as [Hv Hplain].
  rewrite fmap_cons. simpl.
  destruct v as [|b|z|f|s]; try discriminate; simpl in *.
  - apply (IH _ Hplain Hstr).
  - apply (IH _ Hplain Hstr).
  - apply (IH _ Hplain Hstr).
  - reflexivity.
Qed.

Lemma check_rules_without_float (df : list (gmap string (pyval F))) :
  (forall row, row ∈ df -> is_float (get row "failed_logins") = false) ->
  exists alerts, RuleEngine.check_rules df = Ok alerts.
Proof.
  intros Hplain. unfold RuleEngine.check_rules. rewrite check_rules_loop_spec.
  destruct (map_result _ df) as [counts|e] eqn:Hcounts; [eexists; reflexivity|].
  apply map_result_raise in Hcounts as (row & Hrow & Hraise).
  apply coerce_raise in Hraise as (f & Hf & _).
  apply Hplain in Hrow. rewrite Hf in Hrow. discriminate.
Qed.

(** X12. The value that the rule engine takes for 0 stops the heuristic: without
    numpy and without a model, when the stored [failed_logins] are not
    floats and one of them is a string, such as ["unknown"], [detect] raises
    TypeError and returns no record; the rule engine has its alerts for the
    same rows, and [analyze] loses them to the exception. *)
Theorem detect_raises_on_string_count (env : Env F Model)
    (self : AnomalyDetector F Model) (df : list (gmap string (pyval F))) :
  numpy env = None ->
  model self = None ->
  forallb (fun r => negb (is_float (count_feature r))) df = true ->
  existsb (fun r => is_str (count_feature r)) df = true ->
  (detect env self df).2 = Raise TypeError /\
  is_ok (RuleEngine.check_rules df) = true /\
  (ThreatAgent.analyze env self df).2 = Raise TypeError.
Proof.
  intros Hnp Hmodel Hplain Hstr.
  assert (Hrules : exists alerts, RuleEngine.check_rules df = Ok alerts).
  { apply check_rules_without_float. rewrite forallb_forall in Hplain.
    intros row Hrow. apply list_elem_of_In, Hplain in Hrow.
    unfold count_feature, get_default in Hrow. unfold get.
    destruct (row !! "failed_logins") as [v|]; [|reflexivity].
    apply negb_true_iff in Hrow. exact Hrow. }
  assert (Hdetect : (detect env self df).2 = Raise TypeError);
    [|split; [exact Hdetect|]; destruct Hrules as [alerts Hrules];
      split; [rewrite Hrules; reflexivity|];
      unfold ThreatAgent.analyze; rewrite Hrules; simpl; rewrite Hdetect; reflexivity].
  rewrite detect_spec. unfold extract_features. rewrite Hnp. simpl.
  assert (Hmask : (compute_mask env self (FList (feature_row <$> df))).2 =
                  Raise TypeError).
  { unfold compute_mask. rewrite Hmodel.
    assert (Hheur : _heuristic_mask env self (FList (feature_row <$> df)) =
                    Raise TypeError).
    { unfold _heuristic_mask. rewrite Hnp. unfold py_heuristic_mask. simpl.
      assert (Hne : df <> []) by (intros ->; discriminate).
      destruct (feature_row <$> df) as [|row rows] eqn:Hrows.
      { apply fmap_nil_inv in Hrows. contradiction. }
      rewrite <- Hrows, (zip_star_feature_rows df Hne).
      assert (Hcol : col_stats (count_feature <$> df) = Raise TypeError);
        [|simpl; rewrite Hcol; reflexivity].
      unfold col_stats, py_sum.
      rewrite (py_sum_from_string 0 (count_feature <$> df)).
      - reflexivity.
      - rewrite forallb_forall in *. intros v Hv.
        apply list_elem_of_In, list_elem_of_fmap in Hv as (r0 & -> & Hr0).
        apply Hplain, list_elem_of_In, Hr0.
      - apply existsb_exists in Hstr as (r0 & Hr0 & Hs).
        apply existsb_exists. exists (count_feature r0). split; [|exact Hs].
        apply list_elem_of_In, list_elem_of_fmap. exists r0.
        split; [reflexivity | apply list_elem_of_In, Hr0]. }
    destruct (sklearn env); exact Hheur. }
  rewrite Hmask. reflexivity.
Qed.

Lemma collect_nil (idx : nat) (mask : list bool) :
  collect (F:=F) [] idx mask = [].
Proof.
  revert idx. induction mask as [|b mask IH]; intros idx; [reflexivity|].
  simpl. rewrite IH, andb_false_r. reflexivity.
Qed.

(** X13. The empty batch: without numpy, [detect] returns the empty list on the
    empty list, whatever the model does, and [analyze] returns two empty
    lists. *)
Theorem empty_batch_gives_no_alert (env : Env F Model) (self : AnomalyDetector F Model) :
  numpy env = None ->
  (detect env self []).2 = Ok [] /\
  (ThreatAgent.analyze env self []).2 = Ok ([], []).
Proof.
  intros Hnp.
  assert (Hdetect : (detect env self []).2 = Ok []).
  { unfold detect, extract_features. rewrite Hnp. simpl.
    destruct (compute_mask env self (FList [])) as [self' mask] eqn:Hcm. simpl.
    assert (Hok : exists m, mask = Ok m).
    { unfold compute_mask, _heuristic_mask in Hcm. rewrite Hnp in Hcm.
      destruct (sklearn env) as [sk|], (model self) as [m|];
        injection Hcm as _ <-; try (eexists; reflexivity).
      unfold try_except. destruct (_ ≫= _) as [m'|e]; eexists; reflexivity. }
    destruct Hok as [m ->]. simpl. rewrite collect_nil. reflexivity. }
  split; [exact Hdetect|].
  unfold ThreatAgent.analyze. simpl. rewrite Hdetect. reflexivity.
Qed.

(** X14. Only the two features count: on two batches whose records agree on
    [failed_logins] and [requests], position by position, [detect] uses the
    same mask, raises the same exception and leaves the same detector. *)
Theorem detect_reads_only_the_features (env : Env F Model)
    (self : AnomalyDetector F Model) (df df' : list (gmap string (pyval F))) :
  feature_row <$> df = feature_row <$> df' ->
  (detect env self df).1 = (detect env self df').1 /\
  exists mask : result (list bool),
    (detect env self df).2 = (m ← mask; Ok (masked m df)) /\
    (detect env self df').2 = (m ← mask; Ok (masked m df')).
Proof.
  intros Hrows.
  assert (Hfs : extract_features env df = extract_features env df').
  { unfold extract_features. rewrite Hrows. reflexivity. }
  split.
  - unfold detect. rewrite Hfs.
    destruct (extract_features env df') as [fs|e]; [|reflexivity].
    destruct (compute_mask env self fs); reflexivity.
  - rewrite !detect_spec, Hfs.
    exists (fs ← extract_features env df'; (compute_mask env self fs).2).
    destruct (extract_features env df') as [fs|e]; split; reflexivity.
Qed.

End DetectorExtras.

(** ** The loop that drops the records seen before *)

Section DedupeFacts.

Context {R : Type} (dumps : R -> string).

Import RunPipeline.

Lemma dedupe_loop_unique (seen : gset string) (unique parsed : list R) :
  dedupe_loop dumps seen unique parsed = unique ++ dedupe_loop dumps seen [] parsed.
Proof.
  revert seen unique. induction parsed as [|r parsed IH]; intros seen unique; simpl.
  - rewrite app_nil_r. reflexivity.
  - destruct (bool_decide (dumps r ∈ seen)); [apply IH|].
    rewrite (IH _ (unique ++ [r])), (IH _ [r]), <- app_assoc. reflexivity.
Qed.

Lemma dedupe_loop_cons (seen : gset string) (r : R) (parsed : list R) :
  dedupe_loop dumps seen [] (r :: parsed) =
  if bool_decide (dumps r ∈ seen) then dedupe_loop dumps seen [] parsed
  else r :: dedupe_loop dumps ({[dumps r]} ∪ seen) [] parsed.
Proof.
  simpl. destruct (bool_decide (dumps r ∈ seen)); [reflexivity|].
  apply dedupe_loop_unique.
Qed.

Lemma dedupe_loop_sublist (seen : gset string) (parsed : list R) :
  dedupe_loop dumps seen [] parsed `sublist_of` parsed.
Proof.
  revert seen. induction parsed as [|r parsed IH]; intros seen.
  - constructor.
  - rewrite dedupe_loop_cons. destruct (bool_decide (dumps r ∈ seen)).
    + apply sublist_cons, IH.
    + apply sublist_skip, IH.
Qed.

Lemma dedupe_loop_fresh (seen : gset string) (parsed : list R) (r : R) :
  r ∈ dedupe_loop dumps seen [] parsed -> dumps r ∉ seen.
Proof.
  revert seen. induction parsed as [|r' parsed IH]; intros seen.
  - intros Hr. inversion Hr.
  - rewrite dedupe_loop_cons. destruct (bool_decide_reflect (dumps r' ∈ seen)) as [Hin|Hin].
    + apply IH.
    + intros Hr. apply elem_of_cons in Hr as [-> | Hr]; [exact Hin|].
      apply IH in Hr. set_solver.
Qed.

Lemma dedupe_loop_NoDup (seen : gset string) (parsed : list R) :
  NoDup (dumps <$> dedupe_loop dumps seen [] parsed).
Proof.
  revert seen. induction parsed as [|r parsed IH]; intros seen.
  - constructor.
  - rewrite dedupe_loop_cons. destruct (bool_decide (dumps r ∈ seen)); [apply IH|].
    rewrite fmap_cons. constructor; [|apply IH].
    intros Hin. apply list_elem_of_fmap in Hin as (r' & Hkey & Hr').
    apply dedupe_loop_fresh in Hr'. set_solver.
Qed.

Lemma dedupe_loop_covers (seen : gset string) (parsed : list R) (r : R) :
  r ∈ parsed ->
  dumps r ∈ seen \/ dumps r ∈ dumps <$> dedupe_loop dumps seen [] parsed.
Proof.
  revert seen. induction parsed as [|r' parsed IH]; intros seen Hr.
  - inversion Hr.
  - rewrite dedupe_loop_cons.
    destruct (bool_decide_reflect (dumps r' ∈ seen)) as [Hin|Hin].
    + apply elem_of_cons in Hr as [-> | Hr]; [left; exact Hin | apply IH, Hr].
    + rewrite fmap_cons. apply elem_of_cons in Hr as [-> | Hr].
      * right. left.
      * destruct (IH ({[dumps r']} ∪ seen) Hr) as [Hseen | Hkept].
        -- apply elem_of_union in Hseen as [Heq | Hseen]; [|left; exact Hseen].
           apply elem_of_singleton in Heq. right. rewrite Heq. left.
        -- right. right. exact Hkept.
Qed.

Lemma dedupe_loop_id (seen : gset string) (parsed : list R) :
  (forall r, r ∈ parsed -> dumps r ∉ seen) ->
  NoDup (dumps <$> parsed) ->
  dedupe_loop dumps seen [] parsed = parsed.
Proof.
  revert seen. induction parsed as [|r parsed IH]; intros seen Hfresh Hnd.
  - reflexivity.
  - rewrite dedupe_loop_cons. rewrite fmap_cons in Hnd.
    apply NoDup_cons in Hnd as [Hr Hnd].
    destruct (bool_decide_reflect (dumps r ∈ seen)) as [Hin|Hin].
    + exfalso. apply (Hfresh r); [left | exact Hin].
    + f_equal. apply IH; [|exact Hnd].
      intros r' Hr' Hin'. apply elem_of_union in Hin' as [Heq | Hin'].
      * apply elem_of_singleton in Heq. apply Hr. rewrite <- Heq.
        apply list_elem_of_fmap. exists r'. split; [reflexivity | exact Hr'].
      * apply (Hfresh r'); [right; exact Hr' | exact Hin'].
Qed.

(** X15. The loop keeps one record for each serialized form: its result is a
    subsequence of the records, no two records of it have the same form, and
    the form of every record that came in is the form of one that is kept. *)
Theorem dedupe_keeps_one_record_per_key (parsed : list R) :
  dedupe dumps parsed `sublist_of` parsed /\
  NoDup (dumps <$> dedupe dumps parsed) /\
  (forall r, r ∈ parsed -> dumps r ∈ dumps <$> dedupe dumps parsed).
Proof.
  unfold dedupe. split; [apply dedupe_loop_sublist|].
  split; [apply dedupe_loop_NoDup|].
  intros r Hr. destruct (dedupe_loop_covers ∅ parsed r Hr) as [Hin | Hin];
    [set_solver | exact Hin].
Qed.

(** X16. Running the loop on its own result changes nothing, and records whose
    serialized forms all differ pass through as they are. *)
Theorem dedupe_idempotent (parsed : list R) :
  dedupe dumps (dedupe dumps parsed) = dedupe dumps parsed /\
  (NoDup (dumps <$> parsed) -> dedupe dumps parsed = parsed).
Proof.
  unfold dedupe. split.
  - apply dedupe_loop_id; [set_solver | apply dedupe_loop_NoDup].
  - intros Hnd. apply dedupe_loop_id; [set_solver | exact Hnd].
Qed.

End DedupeFacts.

(** ** The parser without pandas *)

Section ParserFacts.

Context {F : Type} `{!PyFloat F} {DT : Type} (fromisoformat : string -> option DT).

Import LogParser.

Lemma fill_unknown_not_none (v : value F DT) : fill_unknown v <> Plain PNone.
Proof. destruct v as [[| | | |]|]; discriminate. Qed.

(** X17. After the parser no field holds [None], and the record always has a
    timestamp: the datetime that [fromisoformat] returns when the entry has
    a non-empty string there that it accepts, ['Z'] replaced by ['+00:00'],
    and the string "unknown" in every other case, the text or the number
    that was there being dropped. *)
Theorem parse_entry_timestamp (entry : gmap string (pyval F)) :
  (forall k, parse_entry fromisoformat entry !! k <> Some (Plain PNone)) /\
  (forall s d,
     entry !! "timestamp" = Some (PStr s) -> s <> EmptyString ->
     fromisoformat (replace_Z s) = Some d ->
     parse_entry fromisoformat entry !! "timestamp" = Some (Datetime d)) /\
  ((forall s,
      entry !! "timestamp" = Some (PStr s) ->
      s = EmptyString \/ fromisoformat (replace_Z s) = None) ->
   parse_entry fromisoformat entry !! "timestamp" = Some (Plain (PStr "unknown"))).
Proof.
  unfold parse_entry. split; [|split].
  - intros k. rewrite lookup_fmap.
    destruct (_ !! k) as [v|]; simpl; [|discriminate].
    intros [= Hv]. exact (fill_unknown_not_none v Hv).
  - intros s d Hts Hs Hd. rewrite lookup_fmap, lookup_insert_eq. simpl.
    unfold parse_timestamp, get. rewrite Hts. simpl.
    destruct s as [|c s]; [congruence|]. simpl. simpl in Hd. rewrite Hd. reflexivity.
  - intros Hno. rewrite lookup_fmap, lookup_insert_eq. simpl.
    unfold parse_timestamp, get.
    destruct (entry !! "timestamp") as [ts|] eqn:Hts; simpl; [|reflexivity].
    destruct (truthy ts) eqn:Htruthy; [|reflexivity].
    destruct ts as [| | | |s]; try reflexivity.
    destruct (Hno s eq_refl) as [-> | Hnone]; [discriminate Htruthy|].
    rewrite Hnone. reflexivity.
Qed.

(** X18. The other fields stay: the parsed record has the fields of the entry
    and ["timestamp"], and a field other than the timestamp holds the value
    it had, or "unknown" where it held [None]. *)
Theorem parse_entry_keeps_fields (entry : gmap string (pyval F)) :
  dom (parse_entry fromisoformat entry) = {["timestamp"]} ∪ dom entry /\
  forall k, k <> "timestamp" ->
    parse_entry fromisoformat entry !! k =
    (fun v => if is_none v then Plain (PStr "unknown") else Plain v) <$> entry !! k.
Proof.
  unfold parse_entry. split.
  - rewrite dom_fmap_L, dom_insert_L, dom_fmap_L. reflexivity.
  - intros k Hk. rewrite lookup_fmap, lookup_insert_ne by congruence.
    rewrite lookup_fmap. destruct (entry !! k) as [[| | | |]|]; reflexivity.
Qed.

End ParserFacts.

(** ** From the parser to the aggregation *)

Section ParsedEvents.

Context {F : Type} `{!PyFloat F} {DT : Type} (fromisoformat : string -> option DT).

Import LogParser Aggregator.

Lemma get_parsed (entry : gmap string (pyval F)) (k : string) :
  k <> "timestamp" ->
  get (plain_fields (parse_entry fromisoformat entry)) k =
  match entry !! k with
  | Some PNone => PStr "unknown"
  | Some v => v
  | None => PNone
  end.
Proof.
  intros Hk. unfold get, plain_fields, parse_entry.
  rewrite lookup_omap, lookup_fmap, lookup_insert_ne by congruence.
  rewrite lookup_fmap. destruct (entry !! k) as [[| | | |]|]; reflexivity.
Qed.

(** X19. The parser changes the actor of an event in one case only: an entry
    that holds [None] under ['source_ip'] is counted for the actor
    "unknown", whatever its ['ip'], because the parser has written "unknown"
    there; every other entry keeps the actor it has unparsed. The parser
    never changes whether the event is a failed login. *)
Theorem parsed_event_actor (entry : gmap string (pyval F)) :
  (entry !! "source_ip" = Some PNone ->
   resolve_actor (plain_fields (parse_entry fromisoformat entry)) = PStr "unknown") /\
  (entry !! "source_ip" <> Some PNone ->
   resolve_actor (plain_fields (parse_entry fromisoformat entry)) = resolve_actor entry) /\
  is_failed_login (plain_fields (parse_entry fromisoformat entry)) = is_failed_login entry.
Proof.
  unfold resolve_actor, is_failed_login.
  rewrite !get_parsed by discriminate. unfold get.
  split; [|split].
  - intros ->. reflexivity.
  - intros Hsrc.
    replace (match entry !! "source_ip" with
             | Some PNone => PStr "unknown"
             | Some v => v
             | None => PNone
             end) with (default PNone (entry !! "source_ip"))
      by (destruct (entry !! "source_ip") as [[| | | |]|]; simpl; congruence).
    generalize (default PNone (entry !! "source_ip")). intros src.
    unfold py_or. destruct (truthy src) eqn:Hsrc'; [rewrite Hsrc'; reflexivity|].
    destruct (entry !! "ip") as [[| | | |]|]; reflexivity.
  - destruct (entry !! "event") as [[|b|z|f|s]|]; reflexivity.
Qed.

End ParsedEvents.

(** ** Concrete runs of the callers *)

Section CallerRuns.

Import AnomalyDetector Examples CallerExamples.

Lemma mask_key_hides_short_key_witness :
  (length short_key <=? 8)%nat = true /\
  Forall (fun c => c = "*"%char) (Settings._mask_key (Some short_key)).
Proof.
  split; [reflexivity|].
  apply (mask_key_hides_short_key short_key). reflexivity.
Defined.

Lemma mask_key_shows_four_and_four_witness :
  (8 <? length long_key)%nat = true /\
  Settings._mask_key (Some long_key) !! 2%nat = long_key !! 2%nat /\
  Settings._mask_key (Some long_key) !! 9%nat = Some "*"%char.
Proof.
  split; [reflexivity|]. split.
  - apply (proj1 (mask_key_shows_four_and_four long_key 2 eq_refl)).
    left. repeat constructor.
  - apply (proj2 (mask_key_shows_four_and_four long_key 9 eq_refl)).
    simpl. split; repeat constructor.
Defined.

Lemma brute_force_alerts_of_events_witness :
  plain_actor_ids seven_failures = true /\
  RuleEngine.check_rules (Aggregator.aggregate seven_failures) =
  Ok (omap (actor_alert seven_failures) (actors seven_failures)).
Proof.
  split; [reflexivity|].
  apply (brute_force_alerts_of_events seven_failures). reflexivity.
Defined.

Lemma check_rules_alerts_are_sound_witness :
  RuleEngine.check_rules [record_of "a" 9 9; record_of "b" 2 9] =
    Ok [RuleEngine.alert (PStr "a") 9] /\
  (length [RuleEngine.alert (F:=float) (PStr "a") 9] <= 2)%nat.
Proof.
  split; [reflexivity|].
  apply (check_rules_alerts_are_sound [record_of "a" 9 9; record_of "b" 2 9]).
  reflexivity.
Defined.

Lemma heuristic_mask_has_one_flag_per_row_witness :
  _heuristic_mask plain_env (detector 3) (FList (feature_row <$> ten_records)) =
    Ok (replicate 9 false ++ [true]) /\
  length (replicate 9 false ++ [true]) =
  length (rows_of (FList (feature_row <$> ten_records))).
Proof.
  split; [vm_compute; reflexivity|].
  apply (heuristic_mask_has_one_flag_per_row plain_env (detector 3)).
  - vm_compute. reflexivity.
  - left. reflexivity.
Defined.

Lemma detect_raises_on_string_count_witness :
  forallb (fun r => negb (is_float (count_feature r)))
          [record_of "a" 9 9; unknown_count_record] = true /\
  existsb (fun r => is_str (count_feature r))
          [record_of "a" 9 9; unknown_count_record] = true /\
  (detect plain_env (detector 3) [record_of "a" 9 9; unknown_count_record]).2 =
    Raise TypeError /\
  (ThreatAgent.analyze plain_env (detector 3)
     [record_of "a" 9 9; unknown_count_record]).2 = Raise TypeError.
Proof.
  split; [reflexivity|]. split; [reflexivity|].
  pose proof (detect_raises_on_string_count plain_env (detector 3)
                [record_of "a" 9 9; unknown_count_record]
                eq_refl eq_refl eq_refl eq_refl) as (Hdetect & _ & Hanalyze).
  split; [exact Hdetect | exact Hanalyze].
Defined.

Lemma empty_batch_gives_no_alert_witness :
  numpy sklearn_env = None /\
  (detect sklearn_env fitted_detector []).2 = Ok [].
Proof.
  split; [reflexivity|].
  apply (proj1 (empty_batch_gives_no_alert sklearn_env fitted_detector eq_refl)).
Defined.

Lemma detect_reads_only_the_features_witness :
  feature_row <$> ten_records = feature_row <$> renamed_records /\
  (detect plain_env (detector 3) ten_records).1 =
  (detect plain_env (detector 3) renamed_records).1.
Proof.
  split; [reflexivity|].
  apply (proj1 (detect_reads_only_the_features plain_env (detector 3)
                  ten_records renamed_records eq_refl)).
Defined.

Lemma dedupe_idempotent_witness :
  NoDup (id <$> two_lines) /\
  RunPipeline.dedupe id two_lines = two_lines.
Proof.
  assert (Hkeys : NoDup (id <$> two_lines)).
  { apply (bool_decide_unpack (NoDup (id <$> two_lines))). reflexivity. }
  split; [exact Hkeys|].
  apply (proj2 (dedupe_idempotent id two_lines) Hkeys).
Defined.

Lemma parse_entry_timestamp_witness :
  LogParser.parse_entry keep_text plain_entry !! "timestamp" =
    Some (LogParser.Datetime "2026-02-14T10:00:00+00:00") /\
  LogParser.parse_entry keep_text record_without_count !! "timestamp" =
    Some (LogParser.Plain (PStr "unknown")).
Proof.
  split.
  - apply (proj1 (proj2 (parse_entry_timestamp keep_text plain_entry))
             "2026-02-14T10:00:00Z"); [reflexivity | discriminate | reflexivity].
  - apply (proj2 (proj2 (parse_entry_timestamp keep_text record_without_count))).
    intros s Hs. discriminate Hs.
Defined.

Lemma parse_entry_keeps_fields_witness :
  LogParser.parse_entry keep_text null_source_entry !! "ip" =
  Some (LogParser.Plain (PStr "1.2.3.4")).
Proof.
  rewrite (proj2 (parse_entry_keeps_fields keep_text null_source_entry) "ip");
    [reflexivity | discriminate].
Defined.

Lemma parsed_event_actor_witness :
  null_source_entry !! "source_ip" = Some PNone /\
  Aggregator.resolve_actor null_source_entry = PStr "1.2.3.4" /\
  Aggregator.resolve_actor
    (plain_fields (LogParser.parse_entry keep_text null_source_entry)) =
    PStr "unknown" /\
  Aggregator.resolve_actor
    (plain_fields (LogParser.parse_entry keep_text plain_entry)) =
    Aggregator.resolve_actor plain_entry.
Proof.
  split; [reflexivity|]. split; [reflexivity|]. split.
  - apply (proj1 (parsed_event_actor keep_text null_source_entry)). reflexivity.
  - apply (proj1 (proj2 (parsed_event_actor keep_text plain_entry))). discriminate.
Defined.

End CallerRuns.
